(** * NMR T2 decay calculator: a shallow embedding of its computation

    The repository holds two Streamlit scripts, [nmr_T2decay_model.py] and
    [T2dist.py].  Both define the same four functions
    ([calculate_surface_area], [calculate_volume],
    [calculate_surface_to_volume_ratio], [calculate_t2]), parse the same
    comma-separated list of decay times and evaluate the same decay
    expression [porosity * math.exp(-t / t2) if t2 > 0 else 0].

    Modelling choices.
    - A Python [float] is a real number: [+], [*], [/], [**] and [math.exp]
      are the operations of [R].  Rounding, overflow and the special values
      of binary64 are outside this numeric model.  The one place where the
      range of binary64 decides what a page does is [math.exp]: module
      [Binary64Range] models its [OverflowError] and its underflow to 0.0,
      and the decay curves are stated there.
    - Python exceptions are explicit: a computation returns [Ok v] or
      [Raise e].  [x / y] raises [ZeroDivisionError] when [y] is zero and
      [float(s)] raises [ValueError] on malformed text.
    - [st.error(msg)] appends [msg] to the list of messages the page shows.
    - The text of the T2 input box is an ASCII [string]; [float(s)] returns
      the exact decimal value of a literal, or one of the spellings of
      infinity and not-a-number. *)

From Stdlib Require Import Reals Lra Lia List String Ascii ZArith QArith Qreals Bool Factorial.
Import ListNotations.

(** ** Python computations: a result or an exception, and the page's messages *)

Module Py.

Inductive exn : Type :=
| ZeroDivisionError
| ValueError
| OverflowError.

Definition exn_eqb (a b : exn) : bool :=
  match a, b with
  | ZeroDivisionError, ZeroDivisionError => true
  | ValueError, ValueError => true
  | OverflowError, OverflowError => true
  | _, _ => false
  end.

Inductive result (A : Type) : Type :=
| Ok (a : A)
| Raise (e : exn).

Arguments Ok {A} a.
Arguments Raise {A} e.

(** A computation: its outcome, and the messages it handed to [st.error]. *)
Definition M (A : Type) : Type := (result A * list string)%type.

Definition ret {A} (a : A) : M A := (Ok a, []).

Definition raise {A} (e : exn) : M A := (Raise e, []).

Definition bind {A B} (m : M A) (f : A -> M B) : M B :=
  match m with
  | (Ok a, log) => let (r, log') := f a in (r, log ++ log')
  | (Raise e, log) => (Raise e, log)
  end.

Definition st_error (msg : string) : M unit := (Ok tt, [msg]).

(** [try: body / except catch: handler]. *)
Definition try_except {A} (body : M A) (catch : exn) (handler : M A) : M A :=
  match body with
  | (Ok a, log) => (Ok a, log)
  | (Raise e, log) =>
      if exn_eqb e catch
      then let (r, log') := handler in (r, log ++ log')
      else (Raise e, log)
  end.

(** A list comprehension [[f(t) for t in l]]: left to right, the first
    exception ends it. *)
Fixpoint comprehension {A B} (f : A -> M B) (l : list A) : M (list B) :=
  match l with
  | [] => ret []
  | t :: rest =>
      bind (f t) (fun v => bind (comprehension f rest) (fun vs => ret (v :: vs)))
  end.

Definition raises {A} (m : M A) : Prop := exists e, fst m = Raise e.

End Py.

Import Py.

Declare Scope py_scope.
Delimit Scope py_scope with py.
Notation "x <- m ;; k" := (bind m (fun x => k))
  (at level 61, m at next level, right associativity) : py_scope.
Notation "m ;;; k" := (bind m (fun _ => k))
  (at level 61, right associativity) : py_scope.

(** ** Numeric core (both scripts) *)

Section Numeric.
Local Open Scope R_scope.
Local Open Scope py_scope.

(** Python's [x != y] on floats, with the branch order of the source. *)
Definition ne_dec (x y : R) : {x <> y} + {x = y} :=
  match Req_dec_T x y with
  | left e => right e
  | right n => left n
  end.

(** Python's [x / y]. *)
Definition truediv (x y : R) : M R :=
  if ne_dec y 0 then ret (x / y) else raise ZeroDivisionError.

(** [return 4 * math.pi * radius**2] *)
Definition calculate_surface_area (radius : R) : R :=
  4 * PI * radius ^ 2.

(** [return (4/3) * math.pi * radius**3]; the quotient of the two literals is
    a constant. *)
Definition calculate_volume (radius : R) : R :=
  (4 / 3) * PI * radius ^ 3.

(** [return surface_area / volume if volume != 0 else 0] *)
Definition calculate_surface_to_volume_ratio (surface_area volume : R) : M R :=
  if ne_dec volume 0 then truediv surface_area volume else ret 0.

Definition numerical_instability : string :=
  "Numerical instability detected. Please check your input parameters.".

(** [try: return 1 / (relaxivity * surface_to_volume_ratio)
            if surface_to_volume_ratio != 0 else 0
     except ZeroDivisionError: st.error(...); return 0] *)
Definition calculate_t2 (relaxivity surface_to_volume_ratio : R) : M R :=
  try_except
    (if ne_dec surface_to_volume_ratio 0
     then truediv 1 (relaxivity * surface_to_volume_ratio)
     else ret 0)
    ZeroDivisionError
    (st_error numerical_instability ;;; ret 0).

(** One element of
    [[porosity * math.exp(-t / t2) if t2 > 0 else 0 for t in slider_t2_values]]. *)
Definition mt_value (porosity t2 t : R) : M R :=
  if Rgt_dec t2 0
  then q <- truediv (- t) t2 ;; ret (porosity * exp q)
  else ret 0.

Definition mt_values (porosity t2 : R) (slider_t2_values : list R) : M (list R) :=
  comprehension (mt_value porosity t2) slider_t2_values.

End Numeric.

(** ** Basic facts *)

Section NumericFacts.
Local Open Scope R_scope.

Lemma truediv_nonzero (x y : R) : y <> 0 -> truediv x y = ret (x / y).
Proof.
  intros Hy. unfold truediv. destruct (ne_dec y 0) as [_ | E]; [reflexivity | contradiction].
Qed.

Lemma truediv_zero (x : R) : truediv x 0 = raise ZeroDivisionError.
Proof.
  unfold truediv. destruct (ne_dec 0 0) as [N | _]; [now elim N | reflexivity].
Qed.

Lemma ratio_nonzero (a v : R) :
  v <> 0 -> calculate_surface_to_volume_ratio a v = ret (a / v).
Proof.
  intros Hv. unfold calculate_surface_to_volume_ratio.
  destruct (ne_dec v 0) as [_ | E]; [now apply truediv_nonzero | contradiction].
Qed.

Lemma ratio_zero (a : R) : calculate_surface_to_volume_ratio a 0 = ret 0.
Proof.
  unfold calculate_surface_to_volume_ratio.
  destruct (ne_dec 0 0) as [N | _]; [now elim N | reflexivity].
Qed.

Lemma volume_nonzero (r : R) : r <> 0 -> calculate_volume r <> 0.
Proof.
  intros Hr. unfold calculate_volume.
  assert (Hpi := PI_RGT_0).
  assert (H3 : r ^ 3 <> 0) by now apply pow_nonzero.
  intros E. apply H3.
  assert (Hc : 4 / 3 * PI <> 0) by lra.
  apply (Rmult_eq_reg_l (4 / 3 * PI)); [ | exact Hc].
  rewrite Rmult_0_r. exact E.
Qed.

Lemma sphere_ratio (r : R) :
  r <> 0 -> calculate_surface_area r / calculate_volume r = 3 / r.
Proof.
  intros Hr. unfold calculate_surface_area, calculate_volume.
  assert (Hpi := PI_neq0). field. split; assumption.
Qed.

Lemma geometry_nonzero (r : R) :
  r <> 0 ->
  calculate_surface_to_volume_ratio (calculate_surface_area r) (calculate_volume r)
  = ret (3 / r).
Proof.
  intros Hr. rewrite ratio_nonzero by now apply volume_nonzero.
  now rewrite sphere_ratio.
Qed.

Lemma calculate_t2_zero_ratio (relaxivity : R) : calculate_t2 relaxivity 0 = ret 0.
Proof.
  unfold calculate_t2. destruct (ne_dec 0 0) as [N | _]; [now elim N | reflexivity].
Qed.

Lemma calculate_t2_regular (relaxivity sv : R) :
  relaxivity <> 0 -> sv <> 0 ->
  calculate_t2 relaxivity sv = ret (1 / (relaxivity * sv)).
Proof.
  intros Hr Hs. unfold calculate_t2.
  destruct (ne_dec sv 0) as [_ | E]; [ | contradiction].
  rewrite truediv_nonzero; [reflexivity | ].
  now apply Rmult_integral_contrapositive_currified.
Qed.

Lemma calculate_t2_caught (sv : R) :
  sv <> 0 -> calculate_t2 0 sv = (Ok 0, [numerical_instability]).
Proof.
  intros Hs. unfold calculate_t2.
  destruct (ne_dec sv 0) as [_ | E]; [ | contradiction].
  rewrite Rmult_0_l, truediv_zero. reflexivity.
Qed.

End NumericFacts.

(** ** Text of the T2 input box: [str.split], [str.strip] and [float] *)

Module PyStr.

Local Open Scope char_scope.

(** Characters that [str.strip()] removes: code points 9 to 13, 28 to 31
    and 32. *)
Definition is_space (c : ascii) : bool :=
  let n := nat_of_ascii c in
  ((9 <=? n) && (n <=? 13) || (28 <=? n) && (n <=? 31) || (n =? 32))%nat.

(** Characters that [float] ignores at the ends of its argument: code points
    9 to 13 and 32. *)
Definition is_c_space (c : ascii) : bool :=
  let n := nat_of_ascii c in
  ((9 <=? n) && (n <=? 13) || (n =? 32))%nat.

Definition is_digit (c : ascii) : bool :=
  let n := nat_of_ascii c in ((48 <=? n) && (n <=? 57))%nat.

Definition digit_value (c : ascii) : Z := Z.of_nat (nat_of_ascii c) - 48.

(** ASCII lower case, for the case-insensitive spellings. *)
Definition lower (c : ascii) : ascii :=
  let n := nat_of_ascii c in
  if ((65 <=? n) && (n <=? 90))%nat then ascii_of_nat (n + 32) else c.

(** [s.split(sep)] for a one-character separator: every occurrence cuts, so
    the result has one more field than [s] has separators. *)
Fixpoint split (sep : ascii) (s : string) : list string :=
  match s with
  | EmptyString => [EmptyString]
  | String c rest =>
      if Ascii.eqb c sep then EmptyString :: split sep rest
      else match split sep rest with
           | field :: fields => String c field :: fields
           | [] => [String c EmptyString]
           end
  end.

Fixpoint lstrip (space : ascii -> bool) (s : list ascii) : list ascii :=
  match s with
  | c :: rest => if space c then lstrip space rest else s
  | [] => []
  end.

Definition rstrip (space : ascii -> bool) (s : list ascii) : list ascii :=
  rev (lstrip space (rev s)).

(** [s.strip()] *)
Definition strip (s : string) : string :=
  string_of_list_ascii (rstrip is_space (lstrip is_space (list_ascii_of_string s))).

(** The value [float(s)] returns. *)
Inductive pyfloat : Type :=
| Finite (q : Q)
| Infinity (negative : bool)
| NaN.

(** Underscores of a numeric literal: each must stand between two digits;
    they are removed before the number is read.  [prev] is the previous
    character of the text, if any. *)
Fixpoint drop_underscores (prev : option ascii) (s : list ascii) : option (list ascii) :=
  match s with
  | [] =>
      match prev with
      | Some "_" => None
      | _ => Some []
      end
  | c :: rest =>
      if Ascii.eqb c "_" then
        match prev with
        | Some p => if is_digit p then drop_underscores (Some c) rest else None
        | None => None
        end
      else
        let ok :=
          match prev with
          | Some "_" => is_digit c
          | _ => true
          end in
        if ok then option_map (cons c) (drop_underscores (Some c) rest) else None
  end.

(** The longest prefix of digits, and what follows it. *)
Fixpoint span_digits (s : list ascii) : list ascii * list ascii :=
  match s with
  | c :: rest =>
      if is_digit c then let (ds, tl) := span_digits rest in (c :: ds, tl)
      else ([], s)
  | [] => ([], [])
  end.

Definition digits_value (ds : list ascii) : Z :=
  fold_left (fun acc c => 10 * acc + digit_value c)%Z ds 0%Z.

(** An optional sign; [true] is the minus sign. *)
Definition take_sign (s : list ascii) : bool * list ascii :=
  match s with
  | "-" :: rest => (true, rest)
  | "+" :: rest => (false, rest)
  | _ => (false, s)
  end.

(** [m * 10^e], exactly. *)
Definition scale10 (m e : Z) : Q :=
  if (0 <=? e)%Z then Qred (inject_Z (m * 10 ^ e))
  else Qred (Qmake m (Z.to_pos (10 ^ (- e)))).

(** The exponent part: nothing, or [e]/[E], an optional sign and at least one
    digit, up to the end of the text. *)
Definition exponent (s : list ascii) : option Z :=
  match s with
  | [] => Some 0%Z
  | c :: rest =>
      if Ascii.eqb (lower c) "e" then
        let (neg, rest1) := take_sign rest in
        match span_digits rest1 with
        | ((_ :: _) as ds, []) =>
            Some (if neg then (- digits_value ds)%Z else digits_value ds)
        | _ => None
        end
      else None
  end.

(** [digits [. digits] [exponent]] with at least one digit before the
    exponent; the whole text must be consumed. *)
Definition decimal (s : list ascii) : option Q :=
  let (int_part, after_int) := span_digits s in
  let (frac_part, after_frac) :=
    match after_int with
    | "." :: rest => span_digits rest
    | _ => ([], after_int)
    end in
  match int_part ++ frac_part with
  | [] => None
  | mantissa =>
      match exponent after_frac with
      | Some e =>
          Some (scale10 (digits_value mantissa) (e - Z.of_nat (List.length frac_part)))
      | None => None
      end
  end.

Definition spelled (word : string) (s : list ascii) : bool :=
  String.eqb (string_of_list_ascii (map lower s)) word.

(** A signed number: a decimal literal, or [inf], [infinity] or [nan] in any
    case. *)
Definition signed_number (s : list ascii) : option pyfloat :=
  let (neg, body) := take_sign s in
  match decimal body with
  | Some q => Some (Finite (if neg then Qopp q else q))
  | None =>
      if spelled "inf" body || spelled "infinity" body then Some (Infinity neg)
      else if spelled "nan" body then Some NaN
      else None
  end.

(** [float(s)] on a string: surrounding whitespace is ignored, underscores
    are checked and dropped, and anything that is not a number raises
    [ValueError]. *)
Definition float (s : string) : M pyfloat :=
  match rstrip is_c_space (lstrip is_c_space (list_ascii_of_string s)) with
  | [] => raise ValueError
  | text =>
      match drop_underscores None text with
      | Some digits =>
          match signed_number digits with
          | Some v => ret v
          | None => raise ValueError
          end
      | None => raise ValueError
      end
  end.

End PyStr.

Import PyStr.

(** ** The T2 grid (lines 84-88 of [nmr_T2decay_model.py], 133-137 and 330-334
    of [T2dist.py]) *)

Definition default_t2_values : list pyfloat :=
  [Finite (1 # 2); Finite 1; Finite 2; Finite 4; Finite 8; Finite 16;
   Finite 32; Finite 64; Finite 128; Finite 256; Finite 512; Finite 1024].

Definition invalid_t2_values : string :=
  "Invalid T2 values. Please enter comma-separated numbers.".

(** [try: slider_t2_values = [float(t.strip()) for t in custom_t2_values.split(",")]
     except ValueError: st.error(...); slider_t2_values = [0.5, 1, ..., 1024]] *)
Definition slider_t2_values (custom_t2_values : string) : M (list pyfloat) :=
  try_except
    (comprehension (fun t => float (strip t)) (split "," custom_t2_values))
    ValueError
    (bind (st_error invalid_t2_values) (fun _ => ret default_t2_values)).

(** The real number a finite float stands for. *)
Definition real_of_float (x : pyfloat) : option R :=
  match x with
  | Finite q => Some (Q2R q)
  | _ => None
  end.

Fixpoint reals_of_floats (l : list pyfloat) : option (list R) :=
  match l with
  | [] => Some []
  | x :: rest =>
      match real_of_float x, reals_of_floats rest with
      | Some r, Some rs => Some (r :: rs)
      | _, _ => None
      end
  end.

Example float_examples :
  float "0.5" = ret (Finite (1 # 2)) /\
  float " 1e3 " = ret (Finite 1000) /\
  float "-2.50" = ret (Finite (- (5 # 2))) /\
  float "1_000.5" = ret (Finite (2001 # 2)) /\
  float ".5E-1" = ret (Finite (1 # 20)) /\
  float "7." = ret (Finite 7) /\
  float "-Inf" = ret (Infinity true) /\
  float "nan" = ret NaN /\
  float "" = raise ValueError /\
  float "abc" = raise ValueError /\
  float "1e" = raise ValueError /\
  float "." = raise ValueError /\
  float "1_" = raise ValueError /\
  float "1 2" = raise ValueError /\
  float "0x10" = raise ValueError /\
  float (String (ascii_of_nat 9) "1") = ret (Finite 1) /\
  float (String (ascii_of_nat 28) "1") = raise ValueError /\
  float (strip (String (ascii_of_nat 28) "1")) = ret (Finite 1).
Proof. repeat split; vm_compute; reflexivity. Qed.

Example split_examples :
  split "," "0.5, 1,2" = ["0.5"; " 1"; "2"]%string /\
  split "," "" = [""]%string /\
  split "," "1,,2," = ["1"; ""; "2"; ""]%string /\
  strip "  4 " = "4"%string.
Proof. repeat split; vm_compute; reflexivity. Qed.

Example slider_default_text :
  slider_t2_values "0.5, 1, 2, 4, 8, 16, 32, 64, 128, 256, 512, 1024"
  = ret default_t2_values.
Proof. vm_compute. reflexivity. Qed.

(** ** Unit selection and the two pages *)

(** The keys of [unit_options]; both select boxes list all four. *)
Inductive unit_symbol : Type := u_um | u_nm | u_ms | u_s.

(** [unit_options = {"µm": 1, "nm": 1000, "ms": 1, "s": 0.001}] *)
Definition unit_options (u : unit_symbol) : R :=
  match u with
  | u_um => 1
  | u_nm => 1000
  | u_ms => 1
  | u_s => 0.001
  end%R.

(** [nmr_T2decay_model.py], lines 96-176, and the first tab of [T2dist.py],
    lines 145-183, where every variable carries the suffix [_tab1]: one
    radius, three porosities. *)
Module VariantPorosity.
Local Open Scope R_scope.
Local Open Scope py_scope.

Record widgets : Type := {
  relaxivity : R;
  sphere_radius : R;
  porosity_1 : Z;
  porosity_2 : Z;
  porosity_3 : Z;
  parsed_t2_values : list R;
  radius_unit : unit_symbol;
  time_unit : unit_symbol
}.

Record page : Type := {
  slider_t2_values : list R;
  surface_area : R;
  volume : R;
  surface_to_volume_ratio : R;
  t2 : R;
  mt1_values : list R;
  mt2_values : list R;
  mt3_values : list R
}.

Definition run (w : widgets) : M page :=
  let sphere_radius := sphere_radius w * unit_options (radius_unit w) in
  let slider_t2_values :=
    map (fun t => t * unit_options (time_unit w)) (parsed_t2_values w) in
  let surface_area := calculate_surface_area sphere_radius in
  let volume := calculate_volume sphere_radius in
  surface_to_volume_ratio <- calculate_surface_to_volume_ratio surface_area volume ;;
  t2 <- calculate_t2 (relaxivity w) surface_to_volume_ratio ;;
  mt1_values <- mt_values (IZR (porosity_1 w)) t2 slider_t2_values ;;
  mt2_values <- mt_values (IZR (porosity_2 w)) t2 slider_t2_values ;;
  mt3_values <- mt_values (IZR (porosity_3 w)) t2 slider_t2_values ;;
  ret {| slider_t2_values := slider_t2_values;
         surface_area := surface_area;
         volume := volume;
         surface_to_volume_ratio := surface_to_volume_ratio;
         t2 := t2;
         mt1_values := mt1_values;
         mt2_values := mt2_values;
         mt3_values := mt3_values |}.

End VariantPorosity.

(** The second tab of [T2dist.py], lines 342-386: three radii, one porosity. *)
Module VariantPoreSize.
Local Open Scope R_scope.
Local Open Scope py_scope.

Record widgets : Type := {
  relaxivity_tab2 : R;
  pore_size_1_tab2 : R;
  pore_size_2_tab2 : R;
  pore_size_3_tab2 : R;
  porosity_tab2 : Z;
  parsed_t2_values_tab2 : list R;
  radius_unit_tab2 : unit_symbol;
  time_unit_tab2 : unit_symbol
}.

Record page : Type := {
  slider_t2_values_tab2 : list R;
  surface_to_volume_ratio_1_tab2 : R;
  surface_to_volume_ratio_2_tab2 : R;
  surface_to_volume_ratio_3_tab2 : R;
  t2_1_tab2 : R;
  t2_2_tab2 : R;
  t2_3_tab2 : R;
  mt1_values_tab2 : list R;
  mt2_values_tab2 : list R;
  mt3_values_tab2 : list R
}.

Definition run (w : widgets) : M page :=
  let pore_size_1 := pore_size_1_tab2 w * unit_options (radius_unit_tab2 w) in
  let pore_size_2 := pore_size_2_tab2 w * unit_options (radius_unit_tab2 w) in
  let pore_size_3 := pore_size_3_tab2 w * unit_options (radius_unit_tab2 w) in
  let slider :=
    map (fun t => t * unit_options (time_unit_tab2 w)) (parsed_t2_values_tab2 w) in
  let surface_area_1 := calculate_surface_area pore_size_1 in
  let surface_area_2 := calculate_surface_area pore_size_2 in
  let surface_area_3 := calculate_surface_area pore_size_3 in
  let volume_1 := calculate_volume pore_size_1 in
  let volume_2 := calculate_volume pore_size_2 in
  let volume_3 := calculate_volume pore_size_3 in
  sv1 <- calculate_surface_to_volume_ratio surface_area_1 volume_1 ;;
  sv2 <- calculate_surface_to_volume_ratio surface_area_2 volume_2 ;;
  sv3 <- calculate_surface_to_volume_ratio surface_area_3 volume_3 ;;
  t2_1 <- calculate_t2 (relaxivity_tab2 w) sv1 ;;
  t2_2 <- calculate_t2 (relaxivity_tab2 w) sv2 ;;
  t2_3 <- calculate_t2 (relaxivity_tab2 w) sv3 ;;
  mt1 <- mt_values (IZR (porosity_tab2 w)) t2_1 slider ;;
  mt2 <- mt_values (IZR (porosity_tab2 w)) t2_2 slider ;;
  mt3 <- mt_values (IZR (porosity_tab2 w)) t2_3 slider ;;
  ret {| slider_t2_values_tab2 := slider;
         surface_to_volume_ratio_1_tab2 := sv1;
         surface_to_volume_ratio_2_tab2 := sv2;
         surface_to_volume_ratio_3_tab2 := sv3;
         t2_1_tab2 := t2_1;
         t2_2_tab2 := t2_2;
         t2_3_tab2 := t2_3;
         mt1_values_tab2 := mt1;
         mt2_values_tab2 := mt2;
         mt3_values_tab2 := mt3 |}.

End VariantPoreSize.

(** ** Properties a decay curve may have *)

(** Strictly decreasing in the index. *)
Definition strictly_decreasing (l : list R) : Prop :=
  forall i j : nat, (i < j < List.length l)%nat -> (nth j l 0 < nth i l 0)%R.

Definition strictly_increasing (l : list R) : Prop :=
  forall i j : nat, (i < j < List.length l)%nat -> (nth i l 0 < nth j l 0)%R.

Definition all_zero (l : list R) : Prop := Forall (fun x => x = 0%R) l.

(** ** Laws of the computations *)

Lemma bind_ret {A B : Type} (a : A) (f : A -> M B) : bind (ret a) f = f a.
Proof. unfold bind, ret. destruct (f a) as [r log]. reflexivity. Qed.

Lemma bind_raise {A B : Type} (e : exn) (f : A -> M B) : bind (raise e) f = raise e.
Proof. reflexivity. Qed.

Section ComprehensionFacts.
Context {A B : Type}.

Lemma comprehension_pure (f : A -> M B) (g : A -> B) (l : list A) :
  (forall t, In t l -> f t = ret (g t)) -> comprehension f l = ret (map g l).
Proof.
  induction l as [| t rest IH]; intros Hf; simpl.
  - reflexivity.
  - rewrite (Hf t (or_introl eq_refl)), bind_ret.
    rewrite IH by (intros u Hu; apply Hf; now right).
    now rewrite bind_ret.
Qed.

(** A comprehension raises as soon as one element does and the ones before
    it returned without a message. *)
Lemma comprehension_raises (f : A -> M B) (e : exn) (l : list A) :
  (forall t, In t l -> f t = raise e \/ exists v, f t = ret v) ->
  Exists (fun t => f t = raise e) l ->
  comprehension f l = raise e.
Proof.
  induction l as [| t rest IH]; intros Hall Hex.
  - inversion Hex.
  - simpl. destruct (Hall t (or_introl eq_refl)) as [Hr | [v Hv]].
    + rewrite Hr. reflexivity.
    + rewrite Hv, bind_ret.
      assert (Hrest : Exists (fun t => f t = raise e) rest).
      { inversion Hex as [? ? Hhd | ? ? Htl]; subst; [ | exact Htl].
        rewrite Hv in Hhd. discriminate. }
      rewrite IH; [reflexivity | | exact Hrest].
      intros u Hu. apply Hall. now right.
Qed.

End ComprehensionFacts.

(** ** The decay expression *)

Section DecayFacts.
Local Open Scope R_scope.

(** What one Mt value is, branch by branch. *)
Definition decay (porosity t2 t : R) : R :=
  if Rgt_dec t2 0 then porosity * exp (- t / t2) else 0.

Lemma mt_value_total (porosity t2 t : R) :
  mt_value porosity t2 t = ret (decay porosity t2 t).
Proof.
  unfold mt_value, decay. destruct (Rgt_dec t2 0) as [Hpos | Hneg].
  - rewrite truediv_nonzero by lra. now rewrite bind_ret.
  - reflexivity.
Qed.

Lemma mt_values_total (porosity t2 : R) (grid : list R) :
  mt_values porosity t2 grid = ret (map (decay porosity t2) grid).
Proof.
  unfold mt_values. apply comprehension_pure.
  intros t _. apply mt_value_total.
Qed.

Lemma decay_positive (porosity t2 t : R) :
  0 < t2 -> decay porosity t2 t = porosity * exp (- t / t2).
Proof.
  intros H. unfold decay. destruct (Rgt_dec t2 0); [reflexivity | lra].
Qed.

Lemma decay_nonpositive (porosity t2 t : R) : t2 <= 0 -> decay porosity t2 t = 0.
Proof.
  intros H. unfold decay. destruct (Rgt_dec t2 0); [lra | reflexivity].
Qed.

Lemma mt_values_nonpositive (porosity t2 : R) (grid : list R) :
  t2 <= 0 -> mt_values porosity t2 grid = ret (map (fun _ => 0) grid).
Proof.
  intros H. rewrite mt_values_total. f_equal.
  apply map_ext. intros t. now apply decay_nonpositive.
Qed.

Lemma mt_values_positive (porosity t2 : R) (grid : list R) :
  0 < t2 ->
  mt_values porosity t2 grid = ret (map (fun t => porosity * exp (- t / t2)) grid).
Proof.
  intros H. rewrite mt_values_total. f_equal.
  apply map_ext. intros t. now apply decay_positive.
Qed.

Lemma all_zero_map_const (grid : list R) : all_zero (map (fun _ => 0) grid).
Proof.
  unfold all_zero. induction grid as [| t rest IH]; simpl; constructor; auto.
Qed.

(** The exponential factor falls as the time grows. *)
Lemma exp_factor_decreasing (t2 s t : R) :
  0 < t2 -> s < t -> exp (- t / t2) < exp (- s / t2).
Proof.
  intros Ht2 Hst. apply exp_increasing.
  unfold Rdiv. apply Rmult_lt_compat_r; [now apply Rinv_0_lt_compat | lra].
Qed.

Lemma exp_factor_le_1 (t2 t : R) : 0 < t2 -> 0 <= t -> exp (- t / t2) <= 1.
Proof.
  intros Ht2 Ht. rewrite <- exp_0.
  destruct (Req_dec t 0) as [-> | Hne].
  - unfold Rdiv. rewrite Ropp_0, Rmult_0_l. lra.
  - left. apply exp_increasing.
    assert (Hi : 0 < / t2) by now apply Rinv_0_lt_compat.
    unfold Rdiv. nra.
Qed.

End DecayFacts.

(** ** The range of [math.exp]

    [math.exp(x)] raises [OverflowError] once the exponential exceeds the
    largest binary64 number and returns 0.0 once it is below half the
    smallest one.  The two bounds below lie between the last argument on one
    side and the first on the other:
    [math.exp(709.78271289338397)] is finite and the next float raises;
    [math.exp(-745.13321910194110)] is 5e-324 and the next float gives 0.0. *)

Module Binary64Range.
Local Open Scope R_scope.
Local Open Scope py_scope.

Definition exp_max : R := 709.782712893384.

Definition exp_min : R := -745.13321910194115.

(** [math.exp(x)] *)
Definition math_exp (x : R) : M R :=
  if Rgt_dec x exp_max then raise OverflowError
  else if Rlt_dec x exp_min then ret 0
  else ret (exp x).

(** One element of
    [[porosity * math.exp(-t / t2) if t2 > 0 else 0 for t in slider_t2_values]]. *)
Definition mt_value (porosity t2 t : R) : M R :=
  if Rgt_dec t2 0
  then q <- truediv (- t) t2 ;; e <- math_exp q ;; ret (porosity * e)
  else ret 0.

Definition mt_values (porosity t2 : R) (slider_t2_values : list R) : M (list R) :=
  comprehension (mt_value porosity t2) slider_t2_values.

(** The first page ([nmr_T2decay_model.py] lines 96-176, [T2dist.py] lines
    145-183) with this [math.exp]. *)
Definition variant_porosity (w : VariantPorosity.widgets) : M VariantPorosity.page :=
  let sphere_radius :=
    VariantPorosity.sphere_radius w * unit_options (VariantPorosity.radius_unit w) in
  let slider_t2_values :=
    map (fun t => t * unit_options (VariantPorosity.time_unit w))
        (VariantPorosity.parsed_t2_values w) in
  let surface_area := calculate_surface_area sphere_radius in
  let volume := calculate_volume sphere_radius in
  surface_to_volume_ratio <- calculate_surface_to_volume_ratio surface_area volume ;;
  t2 <- calculate_t2 (VariantPorosity.relaxivity w) surface_to_volume_ratio ;;
  mt1_values <- mt_values (IZR (VariantPorosity.porosity_1 w)) t2 slider_t2_values ;;
  mt2_values <- mt_values (IZR (VariantPorosity.porosity_2 w)) t2 slider_t2_values ;;
  mt3_values <- mt_values (IZR (VariantPorosity.porosity_3 w)) t2 slider_t2_values ;;
  ret {| VariantPorosity.slider_t2_values := slider_t2_values;
         VariantPorosity.surface_area := surface_area;
         VariantPorosity.volume := volume;
         VariantPorosity.surface_to_volume_ratio := surface_to_volume_ratio;
         VariantPorosity.t2 := t2;
         VariantPorosity.mt1_values := mt1_values;
         VariantPorosity.mt2_values := mt2_values;
         VariantPorosity.mt3_values := mt3_values |}.

(** The second page ([T2dist.py] lines 342-386) with this [math.exp]. *)
Definition variant_pore_size (w : VariantPoreSize.widgets) : M VariantPoreSize.page :=
  let u := unit_options (VariantPoreSize.radius_unit_tab2 w) in
  let pore_size_1 := VariantPoreSize.pore_size_1_tab2 w * u in
  let pore_size_2 := VariantPoreSize.pore_size_2_tab2 w * u in
  let pore_size_3 := VariantPoreSize.pore_size_3_tab2 w * u in
  let slider :=
    map (fun t => t * unit_options (VariantPoreSize.time_unit_tab2 w))
        (VariantPoreSize.parsed_t2_values_tab2 w) in
  sv1 <- calculate_surface_to_volume_ratio
           (calculate_surface_area pore_size_1) (calculate_volume pore_size_1) ;;
  sv2 <- calculate_surface_to_volume_ratio
           (calculate_surface_area pore_size_2) (calculate_volume pore_size_2) ;;
  sv3 <- calculate_surface_to_volume_ratio
           (calculate_surface_area pore_size_3) (calculate_volume pore_size_3) ;;
  t2_1 <- calculate_t2 (VariantPoreSize.relaxivity_tab2 w) sv1 ;;
  t2_2 <- calculate_t2 (VariantPoreSize.relaxivity_tab2 w) sv2 ;;
  t2_3 <- calculate_t2 (VariantPoreSize.relaxivity_tab2 w) sv3 ;;
  mt1 <- mt_values (IZR (VariantPoreSize.porosity_tab2 w)) t2_1 slider ;;
  mt2 <- mt_values (IZR (VariantPoreSize.porosity_tab2 w)) t2_2 slider ;;
  mt3 <- mt_values (IZR (VariantPoreSize.porosity_tab2 w)) t2_3 slider ;;
  ret {| VariantPoreSize.slider_t2_values_tab2 := slider;
         VariantPoreSize.surface_to_volume_ratio_1_tab2 := sv1;
         VariantPoreSize.surface_to_volume_ratio_2_tab2 := sv2;
         VariantPoreSize.surface_to_volume_ratio_3_tab2 := sv3;
         VariantPoreSize.t2_1_tab2 := t2_1;
         VariantPoreSize.t2_2_tab2 := t2_2;
         VariantPoreSize.t2_3_tab2 := t2_3;
         VariantPoreSize.mt1_values_tab2 := mt1;
         VariantPoreSize.mt2_values_tab2 := mt2;
         VariantPoreSize.mt3_values_tab2 := mt3 |}.

End Binary64Range.

Section RangeFacts.
Local Open Scope R_scope.

(** The exponential as [math.exp] returns it when it does not raise. *)
Definition clipped_exp (x : R) : R :=
  if Rlt_dec x Binary64Range.exp_min then 0 else exp x.

(** The decay time [t] makes [math.exp] overflow at this [t2]. *)
Definition overflows (t2 t : R) : Prop :=
  0 < t2 /\ Binary64Range.exp_max < - t / t2.

Definition ranged_decay (porosity t2 t : R) : R :=
  if Rgt_dec t2 0 then porosity * clipped_exp (- t / t2) else 0.

Definition non_increasing (l : list R) : Prop :=
  forall i j : nat, (i < j < List.length l)%nat -> nth j l 0 <= nth i l 0.

Lemma exp_bounds_order : Binary64Range.exp_min < 0 < Binary64Range.exp_max.
Proof. unfold Binary64Range.exp_min, Binary64Range.exp_max. lra. Qed.

Lemma math_exp_overflow (x : R) :
  Binary64Range.exp_max < x -> Binary64Range.math_exp x = raise OverflowError.
Proof.
  intros H. unfold Binary64Range.math_exp.
  destruct (Rgt_dec x Binary64Range.exp_max); [reflexivity | unfold Rgt in *; lra].
Qed.

Lemma math_exp_returns (x : R) :
  x <= Binary64Range.exp_max -> Binary64Range.math_exp x = ret (clipped_exp x).
Proof.
  intros H. unfold Binary64Range.math_exp, clipped_exp.
  destruct (Rgt_dec x Binary64Range.exp_max); [unfold Rgt in *; lra | ].
  destruct (Rlt_dec x Binary64Range.exp_min); reflexivity.
Qed.

Lemma clipped_exp_nonneg (x : R) : 0 <= clipped_exp x.
Proof.
  unfold clipped_exp. destruct (Rlt_dec x Binary64Range.exp_min); [lra | ].
  left. apply exp_pos.
Qed.

Lemma clipped_exp_monotone (x y : R) : x <= y -> clipped_exp x <= clipped_exp y.
Proof.
  intros H. unfold clipped_exp.
  destruct (Rlt_dec x Binary64Range.exp_min); destruct (Rlt_dec y Binary64Range.exp_min);
    try lra.
  - left. apply exp_pos.
  - destruct H as [H | ->]; [left; now apply exp_increasing | lra].
Qed.

Lemma clipped_exp_le_1 (x : R) : x <= 0 -> clipped_exp x <= 1.
Proof.
  intros H. unfold clipped_exp. destruct (Rlt_dec x Binary64Range.exp_min); [lra | ].
  rewrite <- exp_0. destruct H as [H | ->]; [left; now apply exp_increasing | lra].
Qed.

Lemma clipped_exp_in_range (x : R) :
  Binary64Range.exp_min <= x -> clipped_exp x = exp x.
Proof.
  intros H. unfold clipped_exp. destruct (Rlt_dec x Binary64Range.exp_min); [lra | reflexivity].
Qed.

Lemma clipped_exp_underflow (x : R) : x < Binary64Range.exp_min -> clipped_exp x = 0.
Proof.
  intros H. unfold clipped_exp. destruct (Rlt_dec x Binary64Range.exp_min); [reflexivity | lra].
Qed.

Lemma overflows_dec (t2 t : R) : {overflows t2 t} + {~ overflows t2 t}.
Proof.
  unfold overflows.
  destruct (Rlt_dec 0 t2) as [H1 | H1];
    [destruct (Rlt_dec Binary64Range.exp_max (- t / t2)) as [H2 | H2] | ].
  - left. now split.
  - right. intros [_ H]. contradiction.
  - right. intros [H _]. contradiction.
Qed.

Lemma not_overflows_nonneg (t2 t : R) : 0 <= t -> ~ overflows t2 t.
Proof.
  intros Ht [Ht2 H]. destruct exp_bounds_order as [_ Hmax].
  assert (Hi : 0 < / t2) by now apply Rinv_0_lt_compat.
  assert (Hq : - t / t2 <= 0) by (unfold Rdiv; nra). lra.
Qed.

Lemma ranged_mt_value_overflow (porosity t2 t : R) :
  overflows t2 t -> Binary64Range.mt_value porosity t2 t = raise OverflowError.
Proof.
  intros [Ht2 H]. unfold Binary64Range.mt_value.
  destruct (Rgt_dec t2 0) as [_ | N]; [ | unfold Rgt in N; lra].
  rewrite truediv_nonzero by lra. rewrite bind_ret.
  now rewrite math_exp_overflow.
Qed.

Lemma ranged_mt_value_returns (porosity t2 t : R) :
  ~ overflows t2 t ->
  Binary64Range.mt_value porosity t2 t = ret (ranged_decay porosity t2 t).
Proof.
  intros H. unfold Binary64Range.mt_value, ranged_decay.
  destruct (Rgt_dec t2 0) as [Hp | _]; [ | reflexivity].
  rewrite truediv_nonzero by (unfold Rgt in Hp; lra). rewrite bind_ret.
  rewrite math_exp_returns.
  - now rewrite bind_ret.
  - destruct (Rle_or_lt (- t / t2) Binary64Range.exp_max) as [Hle | Hlt]; [exact Hle | ].
    exfalso. apply H. split; [exact Hp | exact Hlt].
Qed.

Lemma ranged_mt_values_returns (porosity t2 : R) (grid : list R) :
  Forall (fun t => ~ overflows t2 t) grid ->
  Binary64Range.mt_values porosity t2 grid = ret (map (ranged_decay porosity t2) grid).
Proof.
  intros H. unfold Binary64Range.mt_values. apply comprehension_pure.
  intros t Ht. apply ranged_mt_value_returns.
  rewrite Forall_forall in H. now apply H.
Qed.

Lemma ranged_mt_values_raises (porosity t2 : R) (grid : list R) :
  Exists (overflows t2) grid ->
  Binary64Range.mt_values porosity t2 grid = raise OverflowError.
Proof.
  intros H. unfold Binary64Range.mt_values. apply comprehension_raises.
  - intros t _. destruct (overflows_dec t2 t) as [Ho | Hn].
    + left. now apply ranged_mt_value_overflow.
    + right. eexists. now apply ranged_mt_value_returns.
  - apply Exists_exists in H. destruct H as [t [Hin Ho]].
    apply Exists_exists. exists t. split; [exact Hin | ].
    now apply ranged_mt_value_overflow.
Qed.

Lemma overflow_dichotomy (t2 : R) (grid : list R) :
  Exists (overflows t2) grid \/ Forall (fun t => ~ overflows t2 t) grid.
Proof.
  induction grid as [| t rest [IH | IH]].
  - right. constructor.
  - left. now apply Exists_cons_tl.
  - destruct (overflows_dec t2 t) as [Ho | Hn].
    + left. now apply Exists_cons_hd.
    + right. now constructor.
Qed.

Lemma ranged_decay_nonpositive (porosity t2 t : R) :
  t2 <= 0 -> ranged_decay porosity t2 t = 0.
Proof.
  intros H. unfold ranged_decay. destruct (Rgt_dec t2 0); [unfold Rgt in *; lra | reflexivity].
Qed.

Lemma ranged_decay_positive (porosity t2 t : R) :
  0 < t2 -> ranged_decay porosity t2 t = porosity * clipped_exp (- t / t2).
Proof.
  intros H. unfold ranged_decay. destruct (Rgt_dec t2 0); [reflexivity | unfold Rgt in *; lra].
Qed.

Lemma nth_map_ranged_decay (porosity t2 : R) (grid : list R) (i : nat) :
  (i < List.length grid)%nat ->
  nth i (map (ranged_decay porosity t2) grid) 0
  = ranged_decay porosity t2 (nth i grid 0).
Proof.
  intros Hi.
  rewrite (nth_indep _ 0 (ranged_decay porosity t2 0)) by (now rewrite length_map).
  exact (map_nth (ranged_decay porosity t2) grid 0 i).
Qed.

(** Where [math.exp] neither overflows nor underflows, the element is the
    one of the exact computation. *)
Lemma ranged_mt_value_exact (porosity t2 t : R) :
  0 < t2 ->
  Binary64Range.exp_min <= - t / t2 <= Binary64Range.exp_max ->
  Binary64Range.mt_value porosity t2 t = mt_value porosity t2 t.
Proof.
  intros Ht2 [Hlo Hhi].
  rewrite ranged_mt_value_returns by (intros [_ H]; lra).
  rewrite mt_value_total, ranged_decay_positive, decay_positive by exact Ht2.
  now rewrite clipped_exp_in_range.
Qed.

End RangeFacts.

(** ** Bounds on [exp (-1)] from its alternating series *)

Section ExpBounds.
Local Open Scope R_scope.

Definition inv_fact (i : nat) : R := / INR (fact i).

Lemma inv_fact_0 : inv_fact 0 = 1.
Proof. unfold inv_fact. simpl. apply Rinv_1. Qed.

Lemma inv_fact_S (n : nat) : inv_fact (S n) = inv_fact n / INR (S n).
Proof.
  unfold inv_fact. rewrite fact_simpl, mult_INR.
  rewrite Rinv_mult. unfold Rdiv. apply Rmult_comm.
Qed.

Lemma inv_fact_decreasing : Un_decreasing inv_fact.
Proof.
  intros n. rewrite inv_fact_S.
  assert (Hp : 0 < inv_fact n) by (apply Rinv_0_lt_compat, INR_fact_lt_0).
  assert (H1 : 1 <= INR (S n)).
  { replace 1 with (INR 1) by reflexivity. apply le_INR. lia. }
  apply Rmult_le_reg_r with (INR (S n)); [lra | ].
  unfold Rdiv. rewrite Rmult_assoc, Rinv_l by lra. nra.
Qed.

Lemma inv_fact_vanishes : Un_cv inv_fact 0.
Proof.
  intros eps Heps. destruct (cv_speed_pow_fact 1 eps Heps) as [N HN].
  exists N. intros n Hn. specialize (HN n Hn).
  rewrite pow1 in HN. unfold Rdiv in HN. rewrite Rmult_1_l in HN. exact HN.
Qed.

Lemma exp_neg1_series : Un_cv (fun N => sum_f_R0 (tg_alt inv_fact) N) (exp (-1)).
Proof.
  unfold exp. destruct (exist_exp (-1)) as [l Hl]. simpl.
  intros eps Heps. destruct (Hl eps Heps) as [N HN].
  exists N. intros n Hn. specialize (HN n Hn).
  replace (sum_f_R0 (tg_alt inv_fact) n)
    with (sum_f_R0 (fun i => / INR (fact i) * (-1) ^ i) n); [exact HN | ].
  apply sum_eq. intros i _. unfold tg_alt, inv_fact. apply Rmult_comm.
Qed.

Lemma exp_neg1_bracket (N : nat) :
  sum_f_R0 (tg_alt inv_fact) (S (2 * N)) <= exp (-1)
  <= sum_f_R0 (tg_alt inv_fact) (2 * N).
Proof.
  apply alternated_series_ineq.
  - exact inv_fact_decreasing.
  - exact inv_fact_vanishes.
  - exact exp_neg1_series.
Qed.

Lemma exp_neg1_bounds : 0.367879 < exp (-1) < 0.367882.
Proof.
  destruct (exp_neg1_bracket 4) as [Hlo Hhi].
  change (2 * 4)%nat with 8%nat in *.
  unfold sum_f_R0, tg_alt in Hlo, Hhi.
  repeat rewrite inv_fact_S in Hlo. repeat rewrite inv_fact_S in Hhi.
  rewrite inv_fact_0 in Hlo, Hhi.
  rewrite !S_INR in Hlo, Hhi. simpl INR in Hlo, Hhi. simpl pow in Hlo, Hhi.
  split; lra.
Qed.

End ExpBounds.

(** ** Pore geometry and T2 *)

Section GeometryClaims.
Local Open Scope R_scope.

(** C1.  For every radius r > 0, dividing the surface area 4*pi*r^2 by the
    volume (4/3)*pi*r^3 through [calculate_surface_to_volume_ratio] returns
    3/r, the closed form of the sphere, with no exception and no message;
    the quotient of the two computed values is that same number. *)
Theorem C1_surface_to_volume_closed_form (r : R) :
  0 < r ->
  calculate_surface_to_volume_ratio (calculate_surface_area r) (calculate_volume r)
  = ret (3 / r)
  /\ calculate_surface_area r / calculate_volume r = 3 / r.
Proof.
  intros Hr. assert (Hne : r <> 0) by lra. split.
  - now apply geometry_nonzero.
  - now apply sphere_ratio.
Qed.

Lemma C1_witness :
  calculate_surface_to_volume_ratio (calculate_surface_area 2) (calculate_volume 2)
  = ret (3 / 2)
  /\ calculate_surface_area 2 / calculate_volume 2 = 3 / 2.
Proof. apply (C1_surface_to_volume_closed_form 2). lra. Defined.

(** C6.  At radius 0 the surface area is 0, the volume is 0 and the
    surface-to-volume ratio is 0: the division is not evaluated, nothing is
    raised and no message is shown.  The T2 derived from a zero ratio is 0
    for every relaxivity, in particular for every relaxivity > 0. *)
Theorem C6_zero_radius_is_guarded :
  calculate_surface_area 0 = 0
  /\ calculate_volume 0 = 0
  /\ calculate_surface_to_volume_ratio (calculate_surface_area 0) (calculate_volume 0)
     = ret 0
  /\ (forall relaxivity : R, calculate_t2 relaxivity 0 = ret 0).
Proof.
  assert (Ha : calculate_surface_area 0 = 0) by (unfold calculate_surface_area; ring).
  assert (Hv : calculate_volume 0 = 0) by (unfold calculate_volume; field).
  repeat split; try assumption.
  - rewrite Ha, Hv. apply ratio_zero.
  - intros relaxivity. apply calculate_t2_zero_ratio.
Qed.

(** C9, the code at radius -1: the geometry functions return 4*pi,
    -(4/3)*pi and the ratio -3; nothing is raised. *)
Lemma C9_counterexample :
  -1 < 0
  /\ calculate_surface_area (-1) = 4 * PI
  /\ calculate_volume (-1) = - (4 / 3 * PI)
  /\ calculate_surface_to_volume_ratio
       (calculate_surface_area (-1)) (calculate_volume (-1)) = ret (-3)
  /\ ~ raises (calculate_surface_to_volume_ratio
                 (calculate_surface_area (-1)) (calculate_volume (-1))).
Proof.
  assert (Hr : calculate_surface_to_volume_ratio
                 (calculate_surface_area (-1)) (calculate_volume (-1)) = ret (-3)).
  { rewrite geometry_nonzero by lra. f_equal. field. }
  repeat split.
  - lra.
  - unfold calculate_surface_area. ring.
  - unfold calculate_volume. field.
  - exact Hr.
  - rewrite Hr. intros [e He]. discriminate He.
Qed.

(** C9 as amended.  For every radius r < 0 the geometry computation raises
    nothing: it returns the surface area 4*pi*r^2 > 0, the volume
    (4/3)*pi*r^3 < 0 and the surface-to-volume ratio 3/r < 0. *)
Theorem C9_negative_radius_returns_values (r : R) :
  r < 0 ->
  0 < calculate_surface_area r
  /\ calculate_volume r < 0
  /\ calculate_surface_to_volume_ratio (calculate_surface_area r) (calculate_volume r)
     = ret (3 / r)
  /\ 3 / r < 0.
Proof.
  intros Hr. assert (Hpi := PI_RGT_0).
  assert (H2 : 0 < r ^ 2) by (simpl; nra).
  assert (H3 : r ^ 3 < 0) by (simpl; nra).
  repeat split.
  - unfold calculate_surface_area. nra.
  - unfold calculate_volume. nra.
  - apply geometry_nonzero. lra.
  - assert (Hi : / r < 0) by now apply Rinv_lt_0_compat.
    unfold Rdiv. nra.
Qed.

Lemma C9_witness :
  0 < calculate_surface_area (-2)
  /\ calculate_volume (-2) < 0
  /\ calculate_surface_to_volume_ratio (calculate_surface_area (-2)) (calculate_volume (-2))
     = ret (3 / -2)
  /\ 3 / -2 < 0.
Proof. apply (C9_negative_radius_returns_values (-2)). lra. Defined.

(** C8, the code at relaxivity -1 and ratio 1: [calculate_t2] returns the
    negative value -1 and raises nothing; at relaxivity 0 it returns 0. *)
Lemma C8_counterexample :
  -1 <= 0
  /\ calculate_t2 (-1) 1 = ret (-1)
  /\ ~ raises (calculate_t2 (-1) 1)
  /\ calculate_t2 0 1 = (Ok 0, [numerical_instability]).
Proof.
  assert (H : calculate_t2 (-1) 1 = ret (-1)).
  { rewrite calculate_t2_regular by lra. f_equal. field. }
  repeat split.
  - lra.
  - exact H.
  - rewrite H. intros [e He]. discriminate He.
  - apply calculate_t2_caught. lra.
Qed.

(** C8 as amended.  For every relaxivity <= 0 and every surface-to-volume
    ratio, [calculate_t2] raises nothing and returns a value: 0 when the
    ratio is 0; 0, with the instability message, when the relaxivity is 0
    and the ratio is not; and 1/(relaxivity * ratio) when the relaxivity is
    negative and the ratio is not 0. *)
Theorem C8_nonpositive_relaxivity_returns (relaxivity sv : R) :
  relaxivity <= 0 ->
  (exists v log, calculate_t2 relaxivity sv = (Ok v, log))
  /\ (sv = 0 -> calculate_t2 relaxivity sv = ret 0)
  /\ (sv <> 0 -> relaxivity = 0 ->
      calculate_t2 relaxivity sv = (Ok 0, [numerical_instability]))
  /\ (sv <> 0 -> relaxivity < 0 ->
      calculate_t2 relaxivity sv = ret (1 / (relaxivity * sv))).
Proof.
  intros Hle.
  assert (Hzero : sv = 0 -> calculate_t2 relaxivity sv = ret 0).
  { intros ->. apply calculate_t2_zero_ratio. }
  assert (Hcaught : sv <> 0 -> relaxivity = 0 ->
                    calculate_t2 relaxivity sv = (Ok 0, [numerical_instability])).
  { intros Hs ->. now apply calculate_t2_caught. }
  assert (Hneg : sv <> 0 -> relaxivity < 0 ->
                 calculate_t2 relaxivity sv = ret (1 / (relaxivity * sv))).
  { intros Hs Hr. apply calculate_t2_regular; [lra | exact Hs]. }
  repeat split; try assumption.
  destruct (Req_dec sv 0) as [Hs | Hs].
  - exists 0, []. now apply Hzero.
  - destruct (Req_dec relaxivity 0) as [Hr | Hr].
    + exists 0, [numerical_instability]. now apply Hcaught.
    + exists (1 / (relaxivity * sv)), []. apply Hneg; [exact Hs | lra].
Qed.

Lemma C8_witness :
  (exists v log, calculate_t2 (-1) 6 = (Ok v, log))
  /\ (6 = 0 -> calculate_t2 (-1) 6 = ret 0)
  /\ (6 <> 0 -> -1 = 0 -> calculate_t2 (-1) 6 = (Ok 0, [numerical_instability]))
  /\ (6 <> 0 -> -1 < 0 -> calculate_t2 (-1) 6 = ret (1 / (-1 * 6))).
Proof. apply (C8_nonpositive_relaxivity_returns (-1) 6). lra. Defined.

(** C10.  [calculate_t2] always returns and never raises.  At relaxivity 0
    with a ratio other than 0 the [ZeroDivisionError] of the division is
    caught: the instability message is shown and 0 is returned.  At a
    negative relaxivity with a positive ratio the value returned is
    negative.  In both cases the decay curve computed from that T2 is all
    zero, for every porosity and grid, and raises nothing. *)
Theorem C10_calculate_t2_is_total :
  (forall relaxivity sv : R, exists v log, calculate_t2 relaxivity sv = (Ok v, log))
  /\ (forall sv : R, sv <> 0 ->
        calculate_t2 0 sv = (Ok 0, [numerical_instability])
        /\ forall porosity grid,
             mt_values porosity 0 grid = ret (map (fun _ => 0) grid))
  /\ (forall relaxivity sv : R, relaxivity < 0 -> 0 < sv ->
        exists v, calculate_t2 relaxivity sv = ret v /\ v < 0
                  /\ forall porosity grid,
                       mt_values porosity v grid = ret (map (fun _ => 0) grid)).
Proof.
  split; [ | split].
  - intros relaxivity sv.
    destruct (Req_dec sv 0) as [-> | Hs].
    + exists 0, []. apply calculate_t2_zero_ratio.
    + destruct (Req_dec relaxivity 0) as [-> | Hr].
      * exists 0, [numerical_instability]. now apply calculate_t2_caught.
      * exists (1 / (relaxivity * sv)), []. now apply calculate_t2_regular.
  - intros sv Hs. split; [now apply calculate_t2_caught | ].
    intros porosity grid. apply mt_values_nonpositive. lra.
  - intros relaxivity sv Hr Hs.
    assert (Hv : 1 / (relaxivity * sv) < 0).
    { assert (Hp : relaxivity * sv < 0) by nra.
      assert (Hi : / (relaxivity * sv) < 0) by now apply Rinv_lt_0_compat.
      unfold Rdiv. lra. }
    exists (1 / (relaxivity * sv)). split; [ | split].
    + apply calculate_t2_regular; lra.
    + exact Hv.
    + intros porosity grid. apply mt_values_nonpositive. lra.
Qed.

Lemma C10_witness :
  calculate_t2 0 6 = (Ok 0, [numerical_instability])
  /\ mt_values 30 0 [1; 2] = ret [0; 0]
  /\ exists v, calculate_t2 (-1) 6 = ret v /\ v < 0
               /\ mt_values 30 v [1; 2] = ret [0; 0].
Proof.
  destruct C10_calculate_t2_is_total as [_ [Hzero Hneg]].
  destruct (Hzero 6 ltac:(lra)) as [Hc Hm].
  destruct (Hneg (-1) 6 ltac:(lra) ltac:(lra)) as [v [Hv [Hlt Hmv]]].
  split; [exact Hc | split; [exact (Hm 30 [1; 2]) | ]].
  exists v. split; [exact Hv | split; [exact Hlt | exact (Hmv 30 [1; 2])]].
Defined.

End GeometryClaims.

(** ** Decay curves *)

Section DecayClaims.
Local Open Scope R_scope.

(** C5.  For every T2 <= 0, every porosity and every non-empty grid, the
    decay expression returns a sequence as long as the grid whose values
    are all 0; nothing is raised (the division by T2 is not evaluated). *)
Theorem C5_nonpositive_t2_gives_zero_curve (porosity t2 : R) (grid : list R) :
  t2 <= 0 -> grid <> [] ->
  exists mt, mt_values porosity t2 grid = ret mt
             /\ List.length mt = List.length grid
             /\ all_zero mt.
Proof.
  intros Ht2 _. exists (map (fun _ => 0) grid). split; [ | split].
  - now apply mt_values_nonpositive.
  - apply length_map.
  - apply all_zero_map_const.
Qed.

Lemma C5_witness :
  exists mt, mt_values 30 0 [0.5; 1; 2] = ret mt
             /\ List.length mt = List.length [0.5; 1; 2]
             /\ all_zero mt.
Proof.
  apply (C5_nonpositive_t2_gives_zero_curve 30 0 [0.5; 1; 2]).
  - lra.
  - discriminate.
Defined.

(** C4, the code on two inputs.  At porosity 0, with T2 = 1 and the grid
    1, 2, every Mt value is 0.  At porosity 30 and T2 = 1/3 (relaxivity 0.01,
    radius 0.01), on the grid 256, 512, 1024, [math.exp] is asked for the
    exponential of -768, -1536 and -3072 and returns 0.0 each time.  In
    both cases the sequence is not strictly decreasing. *)
Lemma C4_counterexample :
  (0 < 1
   /\ strictly_increasing [1; 2]
   /\ Forall (fun t => 0 < t) [1; 2]
   /\ exists mt, Binary64Range.mt_values 0 1 [1; 2] = ret mt
                 /\ mt = [0 * exp (- 1 / 1); 0 * exp (- 2 / 1)]
                 /\ ~ strictly_decreasing mt)
  /\ (0 < 1 / 3
      /\ 0 < 30
      /\ strictly_increasing [256; 512; 1024]
      /\ Forall (fun t => 0 < t) [256; 512; 1024]
      /\ exists mt, Binary64Range.mt_values 30 (1 / 3) [256; 512; 1024] = ret mt
                    /\ mt = [30 * 0; 30 * 0; 30 * 0]
                    /\ ~ strictly_decreasing mt).
Proof.
  split.
  - split; [lra | split; [ | split]].
    + intros i j [Hij Hj]. simpl in Hj.
      assert (i = 0%nat /\ j = 1%nat) as [-> ->] by lia. simpl. lra.
    + repeat constructor; lra.
    + exists [0 * exp (- 1 / 1); 0 * exp (- 2 / 1)]. split; [ | split].
      * rewrite ranged_mt_values_returns
          by (repeat constructor; apply not_overflows_nonneg; lra).
        simpl. rewrite !ranged_decay_positive by lra.
        rewrite !clipped_exp_in_range
          by (unfold Binary64Range.exp_min; lra).
        reflexivity.
      * reflexivity.
      * intros Hdec. specialize (Hdec 0%nat 1%nat). simpl in Hdec.
        assert (H : (0 < 1 < 2)%nat) by lia. specialize (Hdec H). lra.
  - split; [lra | split; [lra | split; [ | split]]].
    + intros i j [Hij Hj]. simpl in Hj.
      destruct i as [| [| i]]; destruct j as [| [| [| j]]]; simpl; try lia; lra.
    + repeat constructor; lra.
    + exists [30 * 0; 30 * 0; 30 * 0]. split; [ | split].
      * rewrite ranged_mt_values_returns
          by (repeat constructor; apply not_overflows_nonneg; lra).
        simpl. rewrite !ranged_decay_positive by lra.
        rewrite !clipped_exp_underflow
          by (unfold Binary64Range.exp_min; lra).
        reflexivity.
      * reflexivity.
      * intros Hdec. specialize (Hdec 0%nat 1%nat). simpl in Hdec.
        assert (H : (0 < 1 < 3)%nat) by lia. specialize (Hdec H). lra.
Qed.

(** C4 as amended.  For every T2 > 0, every porosity >= 0 and every strictly
    increasing grid of positive times, the decay expression raises nothing
    and returns one value per grid point; the value at index [i] is
    porosity * exp(-t[i]/T2), or 0 once [math.exp] has underflowed; every
    value lies in [0, porosity]; and the sequence never increases with [i]
    (it is not strictly decreasing: values tie at porosity 0 and once they
    have underflowed to 0). *)
Theorem C4_decay_curve_shape (porosity t2 : R) (grid : list R) :
  0 < t2 -> 0 <= porosity ->
  strictly_increasing grid -> Forall (fun t => 0 < t) grid ->
  exists mt, Binary64Range.mt_values porosity t2 grid = ret mt
             /\ List.length mt = List.length grid
             /\ (forall i, (i < List.length grid)%nat ->
                   (Binary64Range.exp_min <= - nth i grid 0 / t2 ->
                    nth i mt 0 = porosity * exp (- nth i grid 0 / t2))
                   /\ (- nth i grid 0 / t2 < Binary64Range.exp_min ->
                       nth i mt 0 = 0))
             /\ Forall (fun m => 0 <= m <= porosity) mt
             /\ non_increasing mt.
Proof.
  intros Ht2 Hp Hinc Hpos.
  assert (Hnn : forall t, In t grid -> 0 <= t).
  { intros t Ht. rewrite Forall_forall in Hpos. left. now apply Hpos. }
  exists (map (ranged_decay porosity t2) grid).
  split.
  { apply ranged_mt_values_returns. apply Forall_forall. intros t Ht.
    apply not_overflows_nonneg. now apply Hnn. }
  split; [apply length_map | ].
  assert (Hi2 : 0 < / t2) by now apply Rinv_0_lt_compat.
  split; [ | split].
  - intros i Hi. rewrite nth_map_ranged_decay by exact Hi.
    rewrite ranged_decay_positive by exact Ht2. split; intros H.
    + now rewrite clipped_exp_in_range.
    + rewrite clipped_exp_underflow by exact H. ring.
  - apply Forall_forall. intros m Hm.
    apply in_map_iff in Hm. destruct Hm as [t [<- Ht]].
    rewrite ranged_decay_positive by exact Ht2.
    assert (Ht0 := Hnn t Ht).
    assert (Hq : - t / t2 <= 0) by (unfold Rdiv; nra).
    assert (H0 := clipped_exp_nonneg (- t / t2)).
    assert (H1 := clipped_exp_le_1 (- t / t2) Hq).
    split; nra.
  - intros i j [Hij Hj]. rewrite length_map in Hj.
    rewrite !nth_map_ranged_decay by lia.
    rewrite !ranged_decay_positive by exact Ht2.
    apply Rmult_le_compat_l; [exact Hp | ].
    apply clipped_exp_monotone.
    assert (Hlt : nth i grid 0 < nth j grid 0) by (apply Hinc; lia).
    unfold Rdiv. nra.
Qed.

Lemma strictly_increasing_1_2 : strictly_increasing [1; 2].
Proof.
  intros i j [Hij Hj]. simpl in Hj.
  assert (i = 0%nat /\ j = 1%nat) as [-> ->] by lia. simpl. lra.
Qed.

Lemma positive_1_2 : Forall (fun t => 0 < t) [1; 2].
Proof. repeat constructor; lra. Qed.

Lemma C4_witness :
  exists mt, Binary64Range.mt_values 30 4 [1; 2] = ret mt
             /\ List.length mt = List.length [1; 2]
             /\ (forall i, (i < List.length [1; 2])%nat ->
                   (Binary64Range.exp_min <= - nth i [1; 2] 0 / 4 ->
                    nth i mt 0 = 30 * exp (- nth i [1; 2] 0 / 4))
                   /\ (- nth i [1; 2] 0 / 4 < Binary64Range.exp_min ->
                       nth i mt 0 = 0))
             /\ Forall (fun m => 0 <= m <= 30) mt
             /\ non_increasing mt.
Proof.
  apply (C4_decay_curve_shape 30 4 [1; 2]).
  - lra.
  - lra.
  - exact strictly_increasing_1_2.
  - exact positive_1_2.
Defined.

End DecayClaims.

(** ** Parsing the T2 grid *)

Section ParseClaims.

(** A field of the text that holds nothing but whitespace. *)
Definition empty_token (tok : string) : Prop := strip tok = EmptyString.

(** A field that [float] rejects. *)
Definition unparseable (tok : string) : Prop := float (strip tok) = raise ValueError.

Definition parses_to (tok : string) (v : pyfloat) : Prop := float (strip tok) = ret v.

Lemma float_cases (s : string) :
  float s = raise ValueError \/ exists v, float s = ret v.
Proof.
  unfold float.
  destruct (rstrip is_c_space (lstrip is_c_space (list_ascii_of_string s)))
    as [| c text]; [now left | ].
  destruct (drop_underscores None (c :: text)) as [digits | ]; [ | now left].
  destruct (signed_number digits) as [v | ]; [right; now exists v | now left].
Qed.

Lemma empty_token_unparseable (tok : string) : empty_token tok -> unparseable tok.
Proof. unfold empty_token, unparseable. intros ->. reflexivity. Qed.

Lemma comprehension_returns {A B : Type} (f : A -> M B) (l : list A) :
  Forall (fun t => exists v, f t = ret v) l ->
  exists vs, comprehension f l = ret vs /\ Forall2 (fun t v => f t = ret v) l vs.
Proof.
  induction 1 as [| t rest [v Hv] _ [vs [Hvs Hall]]].
  - exists []. split; [reflexivity | constructor].
  - exists (v :: vs). split.
    + simpl. rewrite Hv, bind_ret, Hvs, bind_ret. reflexivity.
    + now constructor.
Qed.

Lemma comprehension_dichotomy {A B : Type} (f : A -> M B) (e : exn) (l : list A) :
  (forall t, f t = raise e \/ exists v, f t = ret v) ->
  Exists (fun t => f t = raise e) l
  \/ Forall (fun t => exists v, f t = ret v) l.
Proof.
  intros Hf. induction l as [| t rest [IH | IH]].
  - right. constructor.
  - left. now apply Exists_cons_tl.
  - destruct (Hf t) as [Hr | Hv].
    + left. now apply Exists_cons_hd.
    + right. now constructor.
Qed.

Lemma slider_fallback (raw : string) :
  Exists unparseable (split "," raw) ->
  slider_t2_values raw = (Ok default_t2_values, [invalid_t2_values]).
Proof.
  intros Hex. unfold slider_t2_values.
  rewrite (comprehension_raises (fun t => float (strip t)) ValueError).
  - reflexivity.
  - intros t _. apply float_cases.
  - exact Hex.
Qed.

Lemma slider_parsed (raw : string) :
  Forall (fun tok => exists v, parses_to tok v) (split "," raw) ->
  exists vs, slider_t2_values raw = ret vs /\ Forall2 parses_to (split "," raw) vs.
Proof.
  intros Hall.
  destruct (comprehension_returns (fun t => float (strip t)) _ Hall) as [vs [Hvs H2]].
  exists vs. split; [ | exact H2].
  unfold slider_t2_values. rewrite Hvs. reflexivity.
Qed.

(** C7, the code on a non-positive value: the text [-1, 2] parses, its
    first value is negative, and the result is the parsed list, not the
    default grid; the text [0] gives the one-element grid 0. *)
Lemma C7_counterexample :
  parses_to "-1" (Finite (-1))
  /\ real_of_float (Finite (-1)) = Some (Q2R (-1))
  /\ (Q2R (-1) * unit_options u_ms <= 0)%R
  /\ slider_t2_values "-1, 2" = ret [Finite (-1); Finite 2]
  /\ fst (slider_t2_values "-1, 2") <> Ok default_t2_values
  /\ slider_t2_values "0" = ret [Finite 0].
Proof.
  repeat split.
  - unfold Q2R, unit_options. simpl. lra.
  - vm_compute. discriminate.
Qed.

(** C7 as amended.  Parsing is all-or-nothing: for every text, a field that
    is empty or that [float] cannot read makes the parse show the error
    message and return exactly the 12-element default grid; otherwise
    every field is converted and the result is the list of their values,
    in order, whatever their sign (non-positive values are kept).  The text
    [abc, 1, 2] returns exactly the default grid. *)
Theorem C7_parse_is_all_or_nothing :
  (forall raw : string,
     Exists (fun tok => empty_token tok \/ unparseable tok) (split "," raw) ->
     slider_t2_values raw = (Ok default_t2_values, [invalid_t2_values]))
  /\ (forall raw : string,
        Forall (fun tok => exists v, parses_to tok v) (split "," raw) ->
        exists vs, slider_t2_values raw = ret vs
                   /\ Forall2 parses_to (split "," raw) vs)
  /\ (forall raw : string,
        slider_t2_values raw = (Ok default_t2_values, [invalid_t2_values])
        \/ exists vs, slider_t2_values raw = ret vs
                      /\ Forall2 parses_to (split "," raw) vs)
  /\ slider_t2_values "abc, 1, 2" = (Ok default_t2_values, [invalid_t2_values])
  /\ default_t2_values
     = [Finite (1 # 2); Finite 1; Finite 2; Finite 4; Finite 8; Finite 16;
        Finite 32; Finite 64; Finite 128; Finite 256; Finite 512; Finite 1024]
  /\ List.length default_t2_values = 12%nat.
Proof.
  split; [ | split; [ | split; [ | repeat split]]].
  - intros raw Hex. apply slider_fallback.
    apply Exists_exists in Hex. destruct Hex as [tok [Hin [He | Hu]]];
      apply Exists_exists; exists tok; split; auto using empty_token_unparseable.
  - exact slider_parsed.
  - intros raw.
    destruct (comprehension_dichotomy (fun t => float (strip t)) ValueError
                (split "," raw) (fun t => float_cases (strip t))) as [Hex | Hall].
    + left. now apply slider_fallback.
    + right. now apply slider_parsed.
Qed.

Lemma C7_witness :
  slider_t2_values "1,,2" = (Ok default_t2_values, [invalid_t2_values])
  /\ exists vs, slider_t2_values "0.5, -1" = ret vs
                /\ Forall2 parses_to (split "," "0.5, -1") vs.
Proof.
  destruct C7_parse_is_all_or_nothing as [Hfallback [Hparsed _]].
  split.
  - apply Hfallback. simpl. apply Exists_cons_tl, Exists_cons_hd.
    left. reflexivity.
  - apply Hparsed. simpl. constructor; [ | constructor; [ | constructor]].
    + exists (Finite (1 # 2)). reflexivity.
    + exists (Finite (- (1))). reflexivity.
Defined.

End ParseClaims.

(** ** The pages end to end *)

Section PageClaims.
Local Open Scope R_scope.

(** The first page when neither the relaxivity nor the radius is zero. *)
Lemma variant_porosity_regular (w : VariantPorosity.widgets) :
  let r := VariantPorosity.sphere_radius w
           * unit_options (VariantPorosity.radius_unit w) in
  let grid := map (fun t => t * unit_options (VariantPorosity.time_unit w))
                  (VariantPorosity.parsed_t2_values w) in
  let t2 := 1 / (VariantPorosity.relaxivity w * (3 / r)) in
  VariantPorosity.relaxivity w <> 0 -> r <> 0 ->
  VariantPorosity.run w
  = ret {| VariantPorosity.slider_t2_values := grid;
           VariantPorosity.surface_area := calculate_surface_area r;
           VariantPorosity.volume := calculate_volume r;
           VariantPorosity.surface_to_volume_ratio := 3 / r;
           VariantPorosity.t2 := t2;
           VariantPorosity.mt1_values :=
             map (decay (IZR (VariantPorosity.porosity_1 w)) t2) grid;
           VariantPorosity.mt2_values :=
             map (decay (IZR (VariantPorosity.porosity_2 w)) t2) grid;
           VariantPorosity.mt3_values :=
             map (decay (IZR (VariantPorosity.porosity_3 w)) t2) grid |}.
Proof.
  intros r grid t2 Hrel Hr. unfold VariantPorosity.run.
  fold r. fold grid.
  rewrite (geometry_nonzero r Hr), bind_ret.
  assert (Hsv : 3 / r <> 0).
  { unfold Rdiv. apply Rmult_integral_contrapositive_currified; [lra | ].
    now apply Rinv_neq_0_compat. }
  rewrite (calculate_t2_regular _ _ Hrel Hsv), bind_ret. fold t2.
  rewrite !mt_values_total, !bind_ret. reflexivity.
Qed.

(** The second page when neither the relaxivity nor a radius is zero. *)
Lemma variant_pore_size_t2 (w : VariantPoreSize.widgets) :
  let u := unit_options (VariantPoreSize.radius_unit_tab2 w) in
  let r1 := VariantPoreSize.pore_size_1_tab2 w * u in
  let r2 := VariantPoreSize.pore_size_2_tab2 w * u in
  let r3 := VariantPoreSize.pore_size_3_tab2 w * u in
  let rho := VariantPoreSize.relaxivity_tab2 w in
  rho <> 0 -> r1 <> 0 -> r2 <> 0 -> r3 <> 0 ->
  exists pg, VariantPoreSize.run w = ret pg
             /\ VariantPoreSize.t2_1_tab2 pg = 1 / (rho * (3 / r1))
             /\ VariantPoreSize.t2_2_tab2 pg = 1 / (rho * (3 / r2))
             /\ VariantPoreSize.t2_3_tab2 pg = 1 / (rho * (3 / r3)).
Proof.
  intros u r1 r2 r3 rho Hrho H1 H2 H3. unfold VariantPoreSize.run.
  fold u. fold r1. fold r2. fold r3. fold rho.
  assert (Hsv : forall r, r <> 0 -> 3 / r <> 0).
  { intros r Hr. unfold Rdiv.
    apply Rmult_integral_contrapositive_currified; [lra | ].
    now apply Rinv_neq_0_compat. }
  rewrite (geometry_nonzero r1 H1), bind_ret.
  rewrite (geometry_nonzero r2 H2), bind_ret.
  rewrite (geometry_nonzero r3 H3), bind_ret.
  rewrite (calculate_t2_regular _ _ Hrho (Hsv r1 H1)), bind_ret.
  rewrite (calculate_t2_regular _ _ Hrho (Hsv r2 H2)), bind_ret.
  rewrite (calculate_t2_regular _ _ Hrho (Hsv r3 H3)), bind_ret.
  rewrite !mt_values_total, !bind_ret.
  eexists. split; [reflexivity | ]. simpl. repeat split.
Qed.

(** The scenario of C2: relaxivity 0.003, radius 0.5, porosities 30, 20 and
    10, micrometres and milliseconds, over a given grid. *)
Definition scenario_half_micron (grid : list R) : VariantPorosity.widgets :=
  {| VariantPorosity.relaxivity := 0.003;
     VariantPorosity.sphere_radius := 0.5;
     VariantPorosity.porosity_1 := 30;
     VariantPorosity.porosity_2 := 20;
     VariantPorosity.porosity_3 := 10;
     VariantPorosity.parsed_t2_values := grid;
     VariantPorosity.radius_unit := u_um;
     VariantPorosity.time_unit := u_ms |}.

(** The scenario of C3: relaxivity 0.003, radii 1.0, 0.5 and 0.25, porosity
    50, micrometres and milliseconds, over a given grid. *)
Definition scenario_three_radii (grid : list R) : VariantPoreSize.widgets :=
  {| VariantPoreSize.relaxivity_tab2 := 0.003;
     VariantPoreSize.pore_size_1_tab2 := 1.0;
     VariantPoreSize.pore_size_2_tab2 := 0.5;
     VariantPoreSize.pore_size_3_tab2 := 0.25;
     VariantPoreSize.porosity_tab2 := 50;
     VariantPoreSize.parsed_t2_values_tab2 := grid;
     VariantPoreSize.radius_unit_tab2 := u_um;
     VariantPoreSize.time_unit_tab2 := u_ms |}.

Definition default_reals : list R :=
  map Q2R [1 # 2; 1; 2; 4; 8; 16; 32; 64; 128; 256; 512; 1024]%Q.

Lemma default_grid_is_real : reals_of_floats default_t2_values = Some default_reals.
Proof. reflexivity. Qed.

Lemma three_radii_t2 (grid : list R) :
  exists pg, VariantPoreSize.run (scenario_three_radii grid) = ret pg
             /\ VariantPoreSize.t2_1_tab2 pg = 1000 / 9
             /\ VariantPoreSize.t2_2_tab2 pg = 500 / 9
             /\ VariantPoreSize.t2_3_tab2 pg = 250 / 9.
Proof.
  destruct (variant_pore_size_t2 (scenario_three_radii grid))
    as [pg [Hrun [H1 [H2 H3]]]]; simpl; try lra.
  exists pg. split; [exact Hrun | ].
  rewrite H1, H2, H3. simpl. repeat split; lra.
Qed.

(** C3, the code on the three radii: T2 is 1000/9 at radius 1.0 and 250/9
    at radius 0.25, so T2(0.25) is not 4 * T2(1.0). *)
Lemma C3_counterexample :
  exists pg, VariantPoreSize.run (scenario_three_radii default_reals) = ret pg
             /\ VariantPoreSize.t2_1_tab2 pg = 1000 / 9
             /\ VariantPoreSize.t2_3_tab2 pg = 250 / 9
             /\ VariantPoreSize.t2_3_tab2 pg <> 4 * VariantPoreSize.t2_1_tab2 pg.
Proof.
  destruct (three_radii_t2 default_reals) as [pg [Hrun [H1 [_ H3]]]].
  exists pg. repeat split; try assumption.
  rewrite H1, H3. lra.
Qed.

(** C3 as amended.  For the three scenarios with radii 1.0, 0.5 and 0.25,
    relaxivity 0.003 and porosity 50, over any grid, the page is computed
    without an exception and its three T2 values satisfy
    T2(1.0) = 4 * T2(0.25) and T2(0.5) = 2 * T2(0.25): T2 is proportional
    to the radius. *)
Theorem C3_t2_proportional_to_radius (grid : list R) :
  exists pg, VariantPoreSize.run (scenario_three_radii grid) = ret pg
             /\ VariantPoreSize.t2_1_tab2 pg = 4 * VariantPoreSize.t2_3_tab2 pg
             /\ VariantPoreSize.t2_2_tab2 pg = 2 * VariantPoreSize.t2_3_tab2 pg.
Proof.
  destruct (three_radii_t2 grid) as [pg [Hrun [H1 [H2 H3]]]].
  exists pg. split; [exact Hrun | ].
  rewrite H1, H2, H3. split; lra.
Qed.

Lemma half_micron_page (grid : list R) :
  VariantPorosity.run (scenario_half_micron grid)
  = ret {| VariantPorosity.slider_t2_values := map (fun t => t * 1) grid;
           VariantPorosity.surface_area := calculate_surface_area (0.5 * 1);
           VariantPorosity.volume := calculate_volume (0.5 * 1);
           VariantPorosity.surface_to_volume_ratio := 3 / (0.5 * 1);
           VariantPorosity.t2 := 1 / (0.003 * (3 / (0.5 * 1)));
           VariantPorosity.mt1_values :=
             map (decay 30 (1 / (0.003 * (3 / (0.5 * 1))))) (map (fun t => t * 1) grid);
           VariantPorosity.mt2_values :=
             map (decay 20 (1 / (0.003 * (3 / (0.5 * 1))))) (map (fun t => t * 1) grid);
           VariantPorosity.mt3_values :=
             map (decay 10 (1 / (0.003 * (3 / (0.5 * 1))))) (map (fun t => t * 1) grid) |}.
Proof.
  apply (variant_porosity_regular (scenario_half_micron grid)); simpl; lra.
Qed.

Lemma half_micron_t2 : 1 / (0.003 * (3 / (0.5 * 1))) = 500 / 9.
Proof. lra. Qed.

(** Mt1 of the scenario at the grid point that is exactly T2. *)
Lemma half_micron_decay_at_t2 : decay 30 (500 / 9) (500 / 9 * 1) = 30 * exp (-1).
Proof.
  rewrite decay_positive by lra. f_equal. f_equal. lra.
Qed.

(** Mt1 of the scenario at the grid point written 55.5556. *)
Lemma half_micron_decay_at_literal :
  Rabs (decay 30 (500 / 9) (Q2R (138889 # 2500) * 1) - 11.036) < 0.0005.
Proof.
  rewrite decay_positive by lra.
  replace (- (Q2R (138889 # 2500) * 1) / (500 / 9)) with (-1 + - 0.0000008)
    by (unfold Q2R; simpl; lra).
  rewrite exp_plus.
  destruct exp_neg1_bounds as [Hlo Hhi].
  assert (Hge := exp_ineq1_le (- 0.0000008)).
  assert (Hle : exp (- 0.0000008) <= 1).
  { rewrite <- exp_0. left. apply exp_increasing. lra. }
  apply Rabs_def1; nra.
Qed.

(** C2.  With relaxivity 0.003, radius 0.5 (micrometres) and porosities 30,
    20 and 10, the page is computed without an exception or a message; its
    surface-to-volume ratio is 6 and its T2 is 1/(0.003 * 6), which is
    55.5556 to four decimals.  On the grid point that is exactly T2 the
    first Mt value is 30 * exp(-1), which is 11.036 to three decimals; on
    the grid point read from the text [55.5556] the first Mt value is
    11.036 to three decimals as well. *)
Theorem C2_half_micron_scenario :
  (forall grid, exists pg,
      VariantPorosity.run (scenario_half_micron grid) = ret pg
      /\ VariantPorosity.surface_to_volume_ratio pg = 6
      /\ VariantPorosity.t2 pg = 1 / (0.003 * 6)
      /\ Rabs (VariantPorosity.t2 pg - 55.5556) < 0.00005)
  /\ (exists pg,
        VariantPorosity.run (scenario_half_micron [1 / (0.003 * 6)]) = ret pg
        /\ VariantPorosity.slider_t2_values pg = [VariantPorosity.t2 pg]
        /\ VariantPorosity.mt1_values pg = [30 * exp (-1)])
  /\ Rabs (30 * exp (-1) - 11.036) < 0.0005
  /\ slider_t2_values "55.5556" = ret [Finite (138889 # 2500)]
  /\ reals_of_floats [Finite (138889 # 2500)] = Some [Q2R (138889 # 2500)]
  /\ Q2R (138889 # 2500) = 55.5556
  /\ (exists pg m,
        VariantPorosity.run (scenario_half_micron [Q2R (138889 # 2500)]) = ret pg
        /\ VariantPorosity.mt1_values pg = [m]
        /\ Rabs (m - 11.036) < 0.0005).
Proof.
  split; [ | split; [ | split; [ | split; [ | split; [ | split]]]]].
  - intros grid. eexists. split; [apply half_micron_page | ]. simpl.
    split; [lra | split; [lra | ]]. apply Rabs_def1; lra.
  - eexists. split; [apply half_micron_page | ]. simpl. split.
    + f_equal. lra.
    + f_equal. rewrite half_micron_t2.
      replace (1 / (0.003 * 6) * 1) with (500 / 9 * 1) by lra.
      apply half_micron_decay_at_t2.
  - destruct exp_neg1_bounds as [Hlo Hhi]. apply Rabs_def1; lra.
  - vm_compute. reflexivity.
  - reflexivity.
  - unfold Q2R. simpl. lra.
  - eexists. eexists. split; [apply half_micron_page | ]. simpl.
    split; [reflexivity | ]. rewrite half_micron_t2.
    apply half_micron_decay_at_literal.
Qed.

End PageClaims.

(** * Further properties of the code *)

(** ** What every run of the computations returns *)

Section PipelineFacts.
Local Open Scope R_scope.

Lemma unit_options_positive (u : unit_symbol) : 0 < unit_options u.
Proof. destruct u; simpl; lra. Qed.

Lemma bind_ok {A B : Type} (a : A) (log : list string) (f : A -> M B) :
  bind (Ok a, log) f = (fst (f a), log ++ snd (f a)).
Proof. unfold bind. destruct (f a) as [r log']. reflexivity. Qed.

(** The ratio of a sphere of radius [r], as the two guards leave it. *)
Definition sphere_sv (r : R) : R := if ne_dec r 0 then 3 / r else 0.

Lemma geometry_total (r : R) :
  calculate_surface_to_volume_ratio (calculate_surface_area r) (calculate_volume r)
  = ret (sphere_sv r).
Proof.
  unfold sphere_sv. destruct (ne_dec r 0) as [Hr | ->].
  - now apply geometry_nonzero.
  - replace (calculate_volume 0) with 0 by (unfold calculate_volume; field).
    apply ratio_zero.
Qed.

Lemma sphere_sv_zero_iff (r : R) : sphere_sv r = 0 <-> r = 0.
Proof.
  unfold sphere_sv. destruct (ne_dec r 0) as [Hr | ->]; split; intros H;
    try reflexivity; try contradiction.
  exfalso. assert (Hi : / r <> 0) by now apply Rinv_neq_0_compat.
  unfold Rdiv in H. apply Rmult_integral in H. destruct H; [lra | contradiction].
Qed.

(** The value and the messages of [calculate_t2], case by case. *)
Definition t2_value (relaxivity sv : R) : R :=
  if ne_dec sv 0 then if ne_dec relaxivity 0 then 1 / (relaxivity * sv) else 0 else 0.

Definition t2_messages (relaxivity sv : R) : list string :=
  if ne_dec sv 0 then if ne_dec relaxivity 0 then [] else [numerical_instability]
  else [].

Lemma calculate_t2_total (relaxivity sv : R) :
  calculate_t2 relaxivity sv = (Ok (t2_value relaxivity sv), t2_messages relaxivity sv).
Proof.
  unfold t2_value, t2_messages.
  destruct (ne_dec sv 0) as [Hs | ->].
  - destruct (ne_dec relaxivity 0) as [Hr | ->].
    + now apply calculate_t2_regular.
    + now apply calculate_t2_caught.
  - apply calculate_t2_zero_ratio.
Qed.

Lemma variant_porosity_total (w : VariantPorosity.widgets) :
  let r := VariantPorosity.sphere_radius w
           * unit_options (VariantPorosity.radius_unit w) in
  let grid := map (fun t => t * unit_options (VariantPorosity.time_unit w))
                  (VariantPorosity.parsed_t2_values w) in
  let t2 := t2_value (VariantPorosity.relaxivity w) (sphere_sv r) in
  VariantPorosity.run w
  = (Ok {| VariantPorosity.slider_t2_values := grid;
           VariantPorosity.surface_area := calculate_surface_area r;
           VariantPorosity.volume := calculate_volume r;
           VariantPorosity.surface_to_volume_ratio := sphere_sv r;
           VariantPorosity.t2 := t2;
           VariantPorosity.mt1_values :=
             map (decay (IZR (VariantPorosity.porosity_1 w)) t2) grid;
           VariantPorosity.mt2_values :=
             map (decay (IZR (VariantPorosity.porosity_2 w)) t2) grid;
           VariantPorosity.mt3_values :=
             map (decay (IZR (VariantPorosity.porosity_3 w)) t2) grid |},
     t2_messages (VariantPorosity.relaxivity w) (sphere_sv r)).
Proof.
  intros r grid t2. unfold VariantPorosity.run. fold r. fold grid.
  rewrite geometry_total, bind_ret, calculate_t2_total, bind_ok. fold t2.
  rewrite !mt_values_total, !bind_ret. simpl. now rewrite app_nil_r.
Qed.

Lemma variant_pore_size_total (w : VariantPoreSize.widgets) :
  let u := unit_options (VariantPoreSize.radius_unit_tab2 w) in
  let r1 := VariantPoreSize.pore_size_1_tab2 w * u in
  let r2 := VariantPoreSize.pore_size_2_tab2 w * u in
  let r3 := VariantPoreSize.pore_size_3_tab2 w * u in
  let rho := VariantPoreSize.relaxivity_tab2 w in
  let p := IZR (VariantPoreSize.porosity_tab2 w) in
  let grid := map (fun t => t * unit_options (VariantPoreSize.time_unit_tab2 w))
                  (VariantPoreSize.parsed_t2_values_tab2 w) in
  VariantPoreSize.run w
  = (Ok {| VariantPoreSize.slider_t2_values_tab2 := grid;
           VariantPoreSize.surface_to_volume_ratio_1_tab2 := sphere_sv r1;
           VariantPoreSize.surface_to_volume_ratio_2_tab2 := sphere_sv r2;
           VariantPoreSize.surface_to_volume_ratio_3_tab2 := sphere_sv r3;
           VariantPoreSize.t2_1_tab2 := t2_value rho (sphere_sv r1);
           VariantPoreSize.t2_2_tab2 := t2_value rho (sphere_sv r2);
           VariantPoreSize.t2_3_tab2 := t2_value rho (sphere_sv r3);
           VariantPoreSize.mt1_values_tab2 :=
             map (decay p (t2_value rho (sphere_sv r1))) grid;
           VariantPoreSize.mt2_values_tab2 :=
             map (decay p (t2_value rho (sphere_sv r2))) grid;
           VariantPoreSize.mt3_values_tab2 :=
             map (decay p (t2_value rho (sphere_sv r3))) grid |},
     t2_messages rho (sphere_sv r1) ++ t2_messages rho (sphere_sv r2)
     ++ t2_messages rho (sphere_sv r3)).
Proof.
  intros u r1 r2 r3 rho p grid. unfold VariantPoreSize.run.
  fold u. fold r1. fold r2. fold r3. fold rho. fold p. fold grid.
  rewrite !geometry_total, !bind_ret.
  rewrite (calculate_t2_total rho (sphere_sv r1)), bind_ok.
  rewrite (calculate_t2_total rho (sphere_sv r2)), bind_ok.
  rewrite (calculate_t2_total rho (sphere_sv r3)), bind_ok.
  rewrite !mt_values_total, !bind_ret. simpl. now rewrite !app_nil_r.
Qed.

Lemma t2_value_closed_form (relaxivity r : R) :
  relaxivity <> 0 -> r <> 0 -> t2_value relaxivity (sphere_sv r) = r / (3 * relaxivity).
Proof.
  intros Hrho Hr. unfold t2_value.
  assert (Hsv : sphere_sv r <> 0) by (rewrite sphere_sv_zero_iff; exact Hr).
  destruct (ne_dec (sphere_sv r) 0) as [_ | E]; [ | contradiction].
  destruct (ne_dec relaxivity 0) as [_ | E]; [ | contradiction].
  unfold sphere_sv. destruct (ne_dec r 0) as [_ | E]; [ | contradiction].
  field. split; assumption.
Qed.

Lemma nth_map_decay (porosity t2 : R) (grid : list R) (i : nat) :
  (i < List.length grid)%nat ->
  nth i (map (decay porosity t2) grid) 0 = decay porosity t2 (nth i grid 0).
Proof.
  intros Hi.
  rewrite (nth_indep _ 0 (decay porosity t2 0)) by (now rewrite length_map).
  exact (map_nth (decay porosity t2) grid 0 i).
Qed.

End PipelineFacts.

(** ** Geometry and T2, in general *)

Section GeometryExtras.
Local Open Scope R_scope.

(** The surface area is never negative and is 0 only at radius 0; the volume
    has the sign of the radius; and the volume is a third of the radius
    times the surface area. *)
Theorem geometry_signs (r : R) :
  0 <= calculate_surface_area r
  /\ (calculate_surface_area r = 0 <-> r = 0)
  /\ (calculate_volume r = 0 <-> r = 0)
  /\ (0 < calculate_volume r <-> 0 < r)
  /\ calculate_volume r = r / 3 * calculate_surface_area r.
Proof.
  assert (Hpi := PI_RGT_0).
  assert (H2 : 0 <= r ^ 2) by (simpl; nra).
  assert (Hcube : r ^ 3 = r * r ^ 2) by (simpl; ring).
  unfold calculate_surface_area, calculate_volume.
  split; [nra | ]. split; [ | split; [ | split]].
  - split; intros H; [ | subst; ring].
    assert (Hz : r ^ 2 = 0) by nra. simpl in Hz. nra.
  - split; intros H; [ | subst; field].
    destruct (Req_dec r 0) as [Hr | Hr]; [exact Hr | ].
    exfalso. apply (volume_nonzero r Hr). exact H.
  - rewrite Hcube.
    assert (Hq : 0 <= PI * r ^ 2) by nra.
    replace (4 / 3 * PI * (r * r ^ 2)) with (4 / 3 * (r * (PI * r ^ 2))) by ring.
    split; intros H.
    + destruct (Rle_or_lt r 0) as [Hle | Hlt]; [ | exact Hlt]. exfalso. nra.
    + assert (Hsq : 0 < r ^ 2) by (simpl; nra).
      assert (Hq' : 0 < PI * r ^ 2) by nra. nra.
  - field.
Qed.

(** Scaling the radius by [k] scales the surface area by [k^2] and the
    volume by [k^3]; for a radius and a factor that are not zero the ratio
    returned is the ratio at the unscaled radius divided by [k]. *)
Theorem geometry_scaling (k r : R) :
  calculate_surface_area (k * r) = k ^ 2 * calculate_surface_area r
  /\ calculate_volume (k * r) = k ^ 3 * calculate_volume r
  /\ (k <> 0 -> r <> 0 ->
      calculate_surface_to_volume_ratio
        (calculate_surface_area (k * r)) (calculate_volume (k * r))
      = ret (3 / r / k)).
Proof.
  split; [ | split].
  - unfold calculate_surface_area. ring.
  - unfold calculate_volume. field.
  - intros Hk Hr.
    rewrite geometry_nonzero by now apply Rmult_integral_contrapositive_currified.
    f_equal. field. split; assumption.
Qed.

Lemma geometry_scaling_witness :
  calculate_surface_to_volume_ratio
    (calculate_surface_area (1000 * 0.5)) (calculate_volume (1000 * 0.5))
  = ret (3 / 0.5 / 1000).
Proof.
  destruct (geometry_scaling 1000 0.5) as [_ [_ H]]. apply H; lra.
Defined.

(** [calculate_t2] shows the instability message exactly when the relaxivity
    is 0 and the ratio is not, and shows nothing otherwise; the value it
    returns is 0 exactly when the relaxivity or the ratio is 0, and is
    positive exactly when their product is. *)
Theorem calculate_t2_outcome (relaxivity sv : R) :
  exists v log,
    calculate_t2 relaxivity sv = (Ok v, log)
    /\ (log = [numerical_instability] <-> relaxivity = 0 /\ sv <> 0)
    /\ (log = [] <-> relaxivity <> 0 \/ sv = 0)
    /\ (v = 0 <-> relaxivity = 0 \/ sv = 0)
    /\ (0 < v <-> 0 < relaxivity * sv).
Proof.
  exists (t2_value relaxivity sv), (t2_messages relaxivity sv).
  split; [apply calculate_t2_total | ].
  unfold t2_value, t2_messages.
  destruct (ne_dec sv 0) as [Hs | Hs]; [destruct (ne_dec relaxivity 0) as [Hr | Hr] | ].
  - assert (Hp : relaxivity * sv <> 0)
      by now apply Rmult_integral_contrapositive_currified.
    assert (Hi : / (relaxivity * sv) <> 0) by now apply Rinv_neq_0_compat.
    replace (1 / (relaxivity * sv)) with (/ (relaxivity * sv))
      by (unfold Rdiv; now rewrite Rmult_1_l).
    split; [ | split; [ | split]].
    + split; [intros E; discriminate E | intros [E _]; contradiction].
    + split; [intros _; now left | reflexivity].
    + split; [intros E; contradiction | intros [E | E]; contradiction].
    + split; intros Hv.
      * destruct (Rlt_or_le 0 (relaxivity * sv)) as [Hlt | Hle]; [exact Hlt | ].
        exfalso. assert (Hneg : relaxivity * sv < 0) by lra.
        apply Rinv_lt_0_compat in Hneg. lra.
      * now apply Rinv_0_lt_compat.
  - subst relaxivity. split; [ | split; [ | split]].
    + split; [intros _; now split | reflexivity].
    + split; [intros E; discriminate E | intros [E | E]; [now elim E | contradiction]].
    + split; [intros _; now left | reflexivity].
    + rewrite Rmult_0_l. split; intros Hv; lra.
  - subst sv. split; [ | split; [ | split]].
    + split; [intros E; discriminate E | intros [_ E]; now elim E].
    + split; [intros _; now right | reflexivity].
    + split; [intros _; now right | reflexivity].
    + rewrite Rmult_0_r. split; intros Hv; lra.
Qed.

(** Geometry and T2 composed: for a radius and a relaxivity that are not
    zero, the T2 computed from the sphere's ratio is r / (3 * relaxivity),
    with no message; it is positive when both are positive, and scaling the
    radius by [k] scales it by [k]. *)
Theorem t2_of_sphere (relaxivity r : R) :
  relaxivity <> 0 -> r <> 0 ->
  bind (calculate_surface_to_volume_ratio
          (calculate_surface_area r) (calculate_volume r))
       (calculate_t2 relaxivity)
  = ret (r / (3 * relaxivity))
  /\ (0 < relaxivity -> 0 < r -> 0 < r / (3 * relaxivity))
  /\ (forall k, (k * r) / (3 * relaxivity) = k * (r / (3 * relaxivity))).
Proof.
  intros Hrho Hr. split; [ | split].
  - rewrite geometry_total, bind_ret, calculate_t2_total.
    rewrite t2_value_closed_form by assumption.
    unfold t2_messages.
    assert (Hsv : sphere_sv r <> 0) by (rewrite sphere_sv_zero_iff; exact Hr).
    destruct (ne_dec (sphere_sv r) 0) as [_ | E]; [ | contradiction].
    destruct (ne_dec relaxivity 0) as [_ | E]; [reflexivity | contradiction].
  - intros H1 H2. apply Rdiv_lt_0_compat; lra.
  - intros k. field. exact Hrho.
Qed.

Lemma t2_of_sphere_witness :
  bind (calculate_surface_to_volume_ratio
          (calculate_surface_area 0.5) (calculate_volume 0.5))
       (calculate_t2 0.003)
  = ret (0.5 / (3 * 0.003))
  /\ (0 < 0.003 -> 0 < 0.5 -> 0 < 0.5 / (3 * 0.003))
  /\ (forall k, (k * 0.5) / (3 * 0.003) = k * (0.5 / (3 * 0.003))).
Proof. apply (t2_of_sphere 0.003 0.5); lra. Defined.

End GeometryExtras.

(** ** The decay expression, in general *)

Section DecayExtras.
Local Open Scope R_scope.

(** For T2 > 0 the decay is the porosity at time 0 and porosity/e at time
    T2; and for a time t >= 0, the value at t + T2 is the value at t times
    exp(-1), or 0.0 if [math.exp] underflows there. *)
Theorem mt_time_constant (porosity t2 : R) :
  0 < t2 ->
  Binary64Range.mt_values porosity t2 [0; t2] = ret [porosity; porosity * exp (-1)]
  /\ forall t, 0 <= t ->
       exists m m',
         Binary64Range.mt_values porosity t2 [t; t + t2] = ret [m; m']
         /\ (Binary64Range.exp_min <= - (t + t2) / t2 -> m' = m * exp (-1))
         /\ (- (t + t2) / t2 < Binary64Range.exp_min -> m' = 0).
Proof.
  intros Ht2. destruct exp_bounds_order as [Hmin Hmax].
  assert (Hi : 0 < / t2) by now apply Rinv_0_lt_compat.
  split.
  - rewrite ranged_mt_values_returns
      by (repeat constructor; apply not_overflows_nonneg; lra).
    simpl. rewrite !ranged_decay_positive by exact Ht2.
    replace (- 0 / t2) with 0 by (field; lra).
    replace (- t2 / t2) with (-1) by (field; lra).
    rewrite !clipped_exp_in_range
      by (unfold Binary64Range.exp_min; lra).
    rewrite exp_0. f_equal. f_equal. ring.
  - intros t Ht.
    exists (ranged_decay porosity t2 t), (ranged_decay porosity t2 (t + t2)).
    split; [ | split].
    + rewrite ranged_mt_values_returns
        by (repeat constructor; apply not_overflows_nonneg; lra).
      reflexivity.
    + intros Hr. rewrite !ranged_decay_positive by exact Ht2.
      assert (Hq : - (t + t2) / t2 = - t / t2 + -1) by (field; lra).
      rewrite !clipped_exp_in_range by lra.
      rewrite Hq, exp_plus. ring.
    + intros Hu. rewrite ranged_decay_positive by exact Ht2.
      rewrite clipped_exp_underflow by exact Hu. ring.
Qed.

Lemma mt_time_constant_witness :
  Binary64Range.mt_values 30 4 [0; 4] = ret [30; 30 * exp (-1)]
  /\ forall t, 0 <= t ->
       exists m m',
         Binary64Range.mt_values 30 4 [t; t + 4] = ret [m; m']
         /\ (Binary64Range.exp_min <= - (t + 4) / 4 -> m' = m * exp (-1))
         /\ (- (t + 4) / 4 < Binary64Range.exp_min -> m' = 0).
Proof. apply (mt_time_constant 30 4). lra. Defined.

(** A negative decay time, which the parser lets through, with T2 and the
    porosity positive: if -t/T2 is beyond the range of [math.exp] the
    comprehension raises [OverflowError]; otherwise it returns a value that
    is not below the porosity. *)
Theorem mt_negative_time_overshoots (porosity t2 t : R) :
  0 < t2 -> 0 < porosity -> t < 0 ->
  (Binary64Range.exp_max < - t / t2 ->
   Binary64Range.mt_values porosity t2 [t] = raise OverflowError)
  /\ (- t / t2 <= Binary64Range.exp_max ->
      exists m, Binary64Range.mt_values porosity t2 [t] = ret [m] /\ porosity <= m).
Proof.
  intros Ht2 Hp Ht. destruct exp_bounds_order as [Hmin Hmax]. split.
  - intros Ho. apply ranged_mt_values_raises. apply Exists_cons_hd. now split.
  - intros Hr. exists (ranged_decay porosity t2 t). split.
    + apply ranged_mt_values_returns. repeat constructor. intros [_ H]. lra.
    + rewrite ranged_decay_positive by exact Ht2.
      assert (Hi : 0 < / t2) by now apply Rinv_0_lt_compat.
      assert (Hq : 0 < - t / t2) by (unfold Rdiv; nra).
      rewrite clipped_exp_in_range by lra.
      assert (H1 : 1 < exp (- t / t2)).
      { rewrite <- exp_0. now apply exp_increasing. }
      nra.
Qed.

Lemma mt_negative_time_witness :
  (Binary64Range.exp_max < - (-100000) / 100 ->
   Binary64Range.mt_values 30 100 [-100000] = raise OverflowError)
  /\ (- (-100000) / 100 <= Binary64Range.exp_max ->
      exists m, Binary64Range.mt_values 30 100 [-100000] = ret [m] /\ 30 <= m).
Proof. apply (mt_negative_time_overshoots 30 100 (-100000)); lra. Defined.

(** The decay is linear in the porosity: on a grid of times that are not
    negative, for any two porosities and any T2, both curves are returned
    with the grid's length and the curve of porosity [a] scaled by [b] is
    the curve of porosity [b] scaled by [a], value by value. *)
Theorem mt_curves_proportional (a b t2 : R) (grid : list R) :
  Forall (fun t => 0 <= t) grid ->
  exists ma mb,
    Binary64Range.mt_values a t2 grid = ret ma
    /\ Binary64Range.mt_values b t2 grid = ret mb
    /\ List.length ma = List.length grid /\ List.length mb = List.length grid
    /\ forall i, nth i ma 0 * b = nth i mb 0 * a.
Proof.
  intros Hnn.
  assert (Hno : Forall (fun t => ~ overflows t2 t) grid).
  { apply Forall_forall. intros t Ht. apply not_overflows_nonneg.
    rewrite Forall_forall in Hnn. now apply Hnn. }
  exists (map (ranged_decay a t2) grid), (map (ranged_decay b t2) grid).
  split; [now apply ranged_mt_values_returns | ].
  split; [now apply ranged_mt_values_returns | ].
  split; [apply length_map | ]. split; [apply length_map | ].
  intros i. destruct (Nat.lt_ge_cases i (List.length grid)) as [Hi | Hi].
  - rewrite !nth_map_ranged_decay by exact Hi. unfold ranged_decay.
    destruct (Rgt_dec t2 0); ring.
  - rewrite !nth_overflow by (now rewrite length_map). ring.
Qed.

Lemma mt_curves_proportional_witness :
  exists ma mb,
    Binary64Range.mt_values 30 4 [1; 2] = ret ma
    /\ Binary64Range.mt_values 20 4 [1; 2] = ret mb
    /\ List.length ma = List.length [1; 2] /\ List.length mb = List.length [1; 2]
    /\ forall i, nth i ma 0 * 20 = nth i mb 0 * 30.
Proof.
  apply (mt_curves_proportional 30 20 4 [1; 2]). repeat constructor; lra.
Defined.

End DecayExtras.

(** ** The pages, in general *)

Section PageExtras.
Local Open Scope R_scope.

Lemma ranged_mt_values_cases (porosity t2 : R) (grid : list R) :
  Binary64Range.mt_values porosity t2 grid = ret (map (ranged_decay porosity t2) grid)
  \/ Binary64Range.mt_values porosity t2 grid = raise OverflowError.
Proof.
  destruct (overflow_dichotomy t2 grid) as [H | H].
  - right. now apply ranged_mt_values_raises.
  - left. now apply ranged_mt_values_returns.
Qed.

Lemma scaled_grid_nonneg (k : R) (grid : list R) :
  0 < k -> Forall (fun t => 0 <= t) grid ->
  Forall (fun t => 0 <= t) (map (fun t => t * k) grid).
Proof.
  intros Hk H. apply Forall_forall. intros x Hx.
  apply in_map_iff in Hx. destruct Hx as [t [<- Ht]].
  rewrite Forall_forall in H. specialize (H t Ht). nra.
Qed.

Lemma nonneg_grid_no_overflow (t2 : R) (grid : list R) :
  Forall (fun t => 0 <= t) grid -> Forall (fun t => ~ overflows t2 t) grid.
Proof.
  intros H. apply Forall_forall. intros t Ht. apply not_overflows_nonneg.
  rewrite Forall_forall in H. now apply H.
Qed.

Lemma ranged_variant_porosity_returns (w : VariantPorosity.widgets) :
  let r := VariantPorosity.sphere_radius w
           * unit_options (VariantPorosity.radius_unit w) in
  let grid := map (fun t => t * unit_options (VariantPorosity.time_unit w))
                  (VariantPorosity.parsed_t2_values w) in
  let t2 := t2_value (VariantPorosity.relaxivity w) (sphere_sv r) in
  Forall (fun t => ~ overflows t2 t) grid ->
  Binary64Range.variant_porosity w
  = (Ok {| VariantPorosity.slider_t2_values := grid;
           VariantPorosity.surface_area := calculate_surface_area r;
           VariantPorosity.volume := calculate_volume r;
           VariantPorosity.surface_to_volume_ratio := sphere_sv r;
           VariantPorosity.t2 := t2;
           VariantPorosity.mt1_values :=
             map (ranged_decay (IZR (VariantPorosity.porosity_1 w)) t2) grid;
           VariantPorosity.mt2_values :=
             map (ranged_decay (IZR (VariantPorosity.porosity_2 w)) t2) grid;
           VariantPorosity.mt3_values :=
             map (ranged_decay (IZR (VariantPorosity.porosity_3 w)) t2) grid |},
     t2_messages (VariantPorosity.relaxivity w) (sphere_sv r)).
Proof.
  intros r grid t2 Hno. unfold Binary64Range.variant_porosity. fold r. fold grid.
  rewrite geometry_total, bind_ret, calculate_t2_total, bind_ok. fold t2.
  rewrite !(ranged_mt_values_returns _ t2 grid Hno), !bind_ret.
  simpl. now rewrite app_nil_r.
Qed.

Lemma ranged_variant_porosity_raises (w : VariantPorosity.widgets) :
  let r := VariantPorosity.sphere_radius w
           * unit_options (VariantPorosity.radius_unit w) in
  let grid := map (fun t => t * unit_options (VariantPorosity.time_unit w))
                  (VariantPorosity.parsed_t2_values w) in
  let t2 := t2_value (VariantPorosity.relaxivity w) (sphere_sv r) in
  Exists (overflows t2) grid ->
  Binary64Range.variant_porosity w
  = (Raise OverflowError, t2_messages (VariantPorosity.relaxivity w) (sphere_sv r)).
Proof.
  intros r grid t2 Hex. unfold Binary64Range.variant_porosity. fold r. fold grid.
  rewrite geometry_total, bind_ret, calculate_t2_total, bind_ok. fold t2.
  rewrite (ranged_mt_values_raises _ t2 grid Hex).
  simpl. now rewrite app_nil_r.
Qed.

Lemma instability_message_iff (relaxivity radius u : R) :
  0 < u ->
  (t2_messages relaxivity (sphere_sv (radius * u)) = []
   \/ t2_messages relaxivity (sphere_sv (radius * u)) = [numerical_instability])
  /\ (t2_messages relaxivity (sphere_sv (radius * u)) = [numerical_instability]
      <-> relaxivity = 0 /\ radius <> 0).
Proof.
  intros Hu. set (r := radius * u).
  assert (Hr : r = 0 <-> radius = 0).
  { unfold r. split; intros H.
    - apply Rmult_integral in H. destruct H; [assumption | lra].
    - rewrite H. ring. }
  unfold t2_messages.
  destruct (ne_dec (sphere_sv r) 0) as [Hs | Hs];
    [destruct (ne_dec relaxivity 0) as [Hrho | Hrho] | ].
  - split; [now left | ].
    split; [intros E; discriminate E | intros [E _]; contradiction].
  - split; [now right | ]. split; [ | reflexivity].
    intros _. split; [exact Hrho | ].
    intros E. apply Hs. apply sphere_sv_zero_iff. now apply Hr.
  - split; [now left | ].
    split; [intros E; discriminate E | ].
    intros [_ E]. exfalso. apply E. apply Hr. now apply sphere_sv_zero_iff.
Qed.

(** The first page raises nothing but [OverflowError].  On a grid of times
    that are not negative it never raises, and it shows the instability
    message exactly when the relaxivity is 0 and the radius is not.  With a
    positive relaxivity and radius it raises [OverflowError], which nothing
    catches, as soon as one decay time [t] is so negative that -t/T2, with
    T2 = r/(3 * relaxivity), is beyond the range of [math.exp]. *)
Theorem first_page_raises_only_overflow (w : VariantPorosity.widgets) :
  (exists log,
     (exists pg, Binary64Range.variant_porosity w = (Ok pg, log))
     \/ Binary64Range.variant_porosity w = (Raise OverflowError, log))
  /\ (Forall (fun t => 0 <= t) (VariantPorosity.parsed_t2_values w) ->
      exists pg log,
        Binary64Range.variant_porosity w = (Ok pg, log)
        /\ (log = [] \/ log = [numerical_instability])
        /\ (log = [numerical_instability]
            <-> VariantPorosity.relaxivity w = 0
                /\ VariantPorosity.sphere_radius w <> 0))
  /\ (0 < VariantPorosity.relaxivity w ->
      0 < VariantPorosity.sphere_radius w ->
      Exists (fun t =>
                Binary64Range.exp_max
                < - (t * unit_options (VariantPorosity.time_unit w))
                  / (VariantPorosity.sphere_radius w
                     * unit_options (VariantPorosity.radius_unit w)
                     / (3 * VariantPorosity.relaxivity w)))
             (VariantPorosity.parsed_t2_values w) ->
      Binary64Range.variant_porosity w = (Raise OverflowError, [])).
Proof.
  assert (Hu := unit_options_positive (VariantPorosity.radius_unit w)).
  assert (Hk := unit_options_positive (VariantPorosity.time_unit w)).
  set (r := VariantPorosity.sphere_radius w
            * unit_options (VariantPorosity.radius_unit w)).
  set (rho := VariantPorosity.relaxivity w).
  set (grid := map (fun t => t * unit_options (VariantPorosity.time_unit w))
                   (VariantPorosity.parsed_t2_values w)).
  set (t2 := t2_value rho (sphere_sv r)).
  split; [ | split].
  - exists (t2_messages rho (sphere_sv r)).
    destruct (overflow_dichotomy t2 grid) as [Hex | Hno].
    + right. now apply ranged_variant_porosity_raises.
    + left. eexists. now apply ranged_variant_porosity_returns.
  - intros Hnn. eexists. eexists. split.
    + apply ranged_variant_porosity_returns.
      apply nonneg_grid_no_overflow. now apply scaled_grid_nonneg.
    + now apply instability_message_iff.
  - intros Hrho Hrad Hex.
    assert (Hr : 0 < r) by (unfold r; now apply Rmult_lt_0_compat).
    assert (Ht2 : t2 = r / (3 * rho)) by (apply t2_value_closed_form; lra).
    assert (Hpos : 0 < r / (3 * rho)) by (apply Rdiv_lt_0_compat; lra).
    rewrite ranged_variant_porosity_raises.
    + fold r. fold rho. f_equal. unfold t2_messages.
      destruct (ne_dec (sphere_sv r) 0); [ | reflexivity].
      destruct (ne_dec rho 0); [reflexivity | lra].
    + fold r. fold rho. fold t2. fold grid. rewrite Ht2.
      apply Exists_exists in Hex. destruct Hex as [t [Hin Ho]].
      apply Exists_exists. exists (t * unit_options (VariantPorosity.time_unit w)).
      split; [ | split; assumption].
      unfold grid.
      exact (in_map (fun t0 => t0 * unit_options (VariantPorosity.time_unit w)) _ t Hin).
Qed.

Lemma first_page_overflow_witness :
  Binary64Range.variant_porosity (scenario_half_micron [-100000])
  = (Raise OverflowError, []).
Proof.
  destruct (first_page_raises_only_overflow (scenario_half_micron [-100000]))
    as [_ [_ H]].
  apply H.
  - simpl. lra.
  - simpl. lra.
  - apply Exists_cons_hd. unfold Binary64Range.exp_max. simpl. lra.
Defined.

(** The second page raises nothing but [OverflowError] either.  On a grid of
    times that are not negative it never raises; it then shows nothing when
    the relaxivity is not 0, and otherwise only the instability message, at
    most three times. *)
Theorem second_page_raises_only_overflow (w : VariantPoreSize.widgets) :
  (exists log,
     (exists pg, Binary64Range.variant_pore_size w = (Ok pg, log))
     \/ Binary64Range.variant_pore_size w = (Raise OverflowError, log))
  /\ (Forall (fun t => 0 <= t) (VariantPoreSize.parsed_t2_values_tab2 w) ->
      exists pg log,
        Binary64Range.variant_pore_size w = (Ok pg, log)
        /\ (VariantPoreSize.relaxivity_tab2 w <> 0 -> log = [])
        /\ Forall (fun m => m = numerical_instability) log
        /\ (List.length log <= 3)%nat).
Proof.
  assert (Hk := unit_options_positive (VariantPoreSize.time_unit_tab2 w)).
  set (u := unit_options (VariantPoreSize.radius_unit_tab2 w)).
  set (rho := VariantPoreSize.relaxivity_tab2 w).
  set (p := IZR (VariantPoreSize.porosity_tab2 w)).
  set (grid := map (fun t => t * unit_options (VariantPoreSize.time_unit_tab2 w))
                   (VariantPoreSize.parsed_t2_values_tab2 w)).
  set (s1 := sphere_sv (VariantPoreSize.pore_size_1_tab2 w * u)).
  set (s2 := sphere_sv (VariantPoreSize.pore_size_2_tab2 w * u)).
  set (s3 := sphere_sv (VariantPoreSize.pore_size_3_tab2 w * u)).
  assert (Hrun : Binary64Range.variant_pore_size w
                 = bind (Ok tt, t2_messages rho s1 ++ t2_messages rho s2
                                ++ t2_messages rho s3)
                     (fun _ =>
                        bind (Binary64Range.mt_values p (t2_value rho s1) grid)
                          (fun mt1 =>
                        bind (Binary64Range.mt_values p (t2_value rho s2) grid)
                          (fun mt2 =>
                        bind (Binary64Range.mt_values p (t2_value rho s3) grid)
                          (fun mt3 =>
                        ret {| VariantPoreSize.slider_t2_values_tab2 := grid;
                               VariantPoreSize.surface_to_volume_ratio_1_tab2 := s1;
                               VariantPoreSize.surface_to_volume_ratio_2_tab2 := s2;
                               VariantPoreSize.surface_to_volume_ratio_3_tab2 := s3;
                               VariantPoreSize.t2_1_tab2 := t2_value rho s1;
                               VariantPoreSize.t2_2_tab2 := t2_value rho s2;
                               VariantPoreSize.t2_3_tab2 := t2_value rho s3;
                               VariantPoreSize.mt1_values_tab2 := mt1;
                               VariantPoreSize.mt2_values_tab2 := mt2;
                               VariantPoreSize.mt3_values_tab2 := mt3 |}))))).
  { unfold Binary64Range.variant_pore_size.
    fold u. fold rho. fold p. fold grid.
    rewrite !geometry_total, !bind_ret. fold s1. fold s2. fold s3.
    rewrite (calculate_t2_total rho s1), bind_ok.
    rewrite (calculate_t2_total rho s2), bind_ok.
    rewrite (calculate_t2_total rho s3), bind_ok.
    rewrite bind_ok. rewrite <- !app_assoc. reflexivity. }
  assert (Hone : forall sv,
             (rho <> 0 -> t2_messages rho sv = [])
             /\ Forall (fun m => m = numerical_instability) (t2_messages rho sv)
             /\ (List.length (t2_messages rho sv) <= 1)%nat).
  { intros sv. unfold t2_messages.
    destruct (ne_dec sv 0); [destruct (ne_dec rho 0) | ]; simpl;
      repeat split; auto; try contradiction. }
  split.
  - exists (t2_messages rho s1 ++ t2_messages rho s2 ++ t2_messages rho s3).
    rewrite Hrun, bind_ok.
    destruct (ranged_mt_values_cases p (t2_value rho s1) grid) as [E1 | E1];
      rewrite E1; [rewrite bind_ret | right; simpl; now rewrite app_nil_r].
    destruct (ranged_mt_values_cases p (t2_value rho s2) grid) as [E2 | E2];
      rewrite E2; [rewrite bind_ret | right; simpl; now rewrite app_nil_r].
    destruct (ranged_mt_values_cases p (t2_value rho s3) grid) as [E3 | E3];
      rewrite E3; [rewrite bind_ret | right; simpl; now rewrite app_nil_r].
    left. eexists. simpl. now rewrite app_nil_r.
  - intros Hnn.
    assert (Hg : Forall (fun t => 0 <= t) grid) by now apply scaled_grid_nonneg.
    eexists. eexists. split.
    + rewrite Hrun, bind_ok.
      rewrite !(ranged_mt_values_returns p _ grid)
        by now apply nonneg_grid_no_overflow.
      rewrite !bind_ret. simpl. rewrite app_nil_r. reflexivity.
    + destruct (Hone s1) as [A1 [B1 L1]].
      destruct (Hone s2) as [A2 [B2 L2]].
      destruct (Hone s3) as [A3 [B3 L3]].
      split; [ | split].
      * intros Hrho. now rewrite A1, A2, A3.
      * repeat (apply Forall_app; split); assumption.
      * rewrite !length_app. lia.
Qed.

Lemma second_page_witness :
  exists pg log,
    Binary64Range.variant_pore_size (scenario_three_radii [1; 2]) = (Ok pg, log)
    /\ (0.003 <> 0 -> log = [])
    /\ Forall (fun m => m = numerical_instability) log
    /\ (List.length log <= 3)%nat.
Proof.
  destruct (second_page_raises_only_overflow (scenario_three_radii [1; 2]))
    as [_ H].
  apply H. repeat constructor; lra.
Defined.

End PageExtras.

(** ** Units and radii across a page *)

Section UnitExtras.
Local Open Scope R_scope.

(** The widgets [w] with other selections in the two unit boxes. *)
Definition with_units (w : VariantPorosity.widgets) (ru tu : unit_symbol)
  : VariantPorosity.widgets :=
  {| VariantPorosity.relaxivity := VariantPorosity.relaxivity w;
     VariantPorosity.sphere_radius := VariantPorosity.sphere_radius w;
     VariantPorosity.porosity_1 := VariantPorosity.porosity_1 w;
     VariantPorosity.porosity_2 := VariantPorosity.porosity_2 w;
     VariantPorosity.porosity_3 := VariantPorosity.porosity_3 w;
     VariantPorosity.parsed_t2_values := VariantPorosity.parsed_t2_values w;
     VariantPorosity.radius_unit := ru;
     VariantPorosity.time_unit := tu |}.

Lemma sphere_sv_scaled (k r : R) : 0 < k -> sphere_sv (r * k) = sphere_sv r / k.
Proof.
  intros Hk. unfold sphere_sv.
  destruct (ne_dec r 0) as [Hr | ->].
  - destruct (ne_dec (r * k) 0) as [_ | E].
    + field. split; lra.
    + exfalso. apply Rmult_integral in E. destruct E; [contradiction | lra].
  - rewrite Rmult_0_l. destruct (ne_dec 0 0) as [N | _]; [now elim N | ].
    unfold Rdiv. ring.
Qed.

Lemma t2_value_scaled (k relaxivity sv : R) :
  0 < k -> t2_value relaxivity (sv / k) = k * t2_value relaxivity sv.
Proof.
  intros Hk. unfold t2_value.
  assert (Hz : sv / k = 0 <-> sv = 0).
  { split; intros H.
    - unfold Rdiv in H. apply Rmult_integral in H. destruct H as [H | H]; [exact H | ].
      exfalso. assert (0 < / k) by now apply Rinv_0_lt_compat. lra.
    - subst. unfold Rdiv. ring. }
  destruct (ne_dec sv 0) as [Hs | Hs]; destruct (ne_dec (sv / k) 0) as [Hs' | Hs'];
    try tauto; try ring.
  destruct (ne_dec relaxivity 0) as [Hr | Hr]; [ | ring].
  field. repeat split; lra.
Qed.

Lemma t2_messages_scaled (k relaxivity sv : R) :
  0 < k -> t2_messages relaxivity (sv / k) = t2_messages relaxivity sv.
Proof.
  intros Hk. unfold t2_messages.
  assert (Hz : sv / k = 0 <-> sv = 0).
  { split; intros H.
    - unfold Rdiv in H. apply Rmult_integral in H. destruct H as [H | H]; [exact H | ].
      exfalso. assert (0 < / k) by now apply Rinv_0_lt_compat. lra.
    - subst. unfold Rdiv. ring. }
  destruct (ne_dec sv 0); destruct (ne_dec (sv / k) 0); tauto.
Qed.

Lemma scaled_grid_increasing (k : R) (grid : list R) :
  0 < k -> strictly_increasing grid ->
  strictly_increasing (map (fun t => t * k) grid).
Proof.
  intros Hk Hinc i j [Hij Hj]. rewrite length_map in Hj.
  rewrite (nth_indep _ 0 ((fun t => t * k) 0)) by (rewrite length_map; lia).
  rewrite (nth_indep _ 0 ((fun t => t * k) 0) (n := j)) by (rewrite length_map; lia).
  rewrite !(map_nth (fun t => t * k)).
  apply Rmult_lt_compat_r; [exact Hk | ]. apply Hinc. lia.
Qed.



(** Selecting nm instead of µm as the radius unit multiplies the radius by
    1000 before anything is computed: the surface area grows by 10^6, the
    volume by 10^9, the ratio shrinks by 1000 and T2 grows by 1000, and the
    same messages are shown. *)
Theorem nanometre_selection_scales_page (w : VariantPorosity.widgets) (tu : unit_symbol) :
  exists pg pg' log,
    VariantPorosity.run (with_units w u_um tu) = (Ok pg, log)
    /\ VariantPorosity.run (with_units w u_nm tu) = (Ok pg', log)
    /\ VariantPorosity.surface_area pg' = 1000000 * VariantPorosity.surface_area pg
    /\ VariantPorosity.volume pg' = 1000000000 * VariantPorosity.volume pg
    /\ VariantPorosity.surface_to_volume_ratio pg'
       = VariantPorosity.surface_to_volume_ratio pg / 1000
    /\ VariantPorosity.t2 pg' = 1000 * VariantPorosity.t2 pg
    /\ VariantPorosity.slider_t2_values pg' = VariantPorosity.slider_t2_values pg.
Proof.
  eexists. eexists. eexists.
  split; [apply variant_porosity_total | ].
  rewrite (variant_porosity_total (with_units w u_nm tu)). simpl.
  set (r := VariantPorosity.sphere_radius w).
  set (rho := VariantPorosity.relaxivity w).
  rewrite Rmult_1_r.
  rewrite (sphere_sv_scaled 1000 r) by lra.
  rewrite (t2_value_scaled 1000) by lra.
  rewrite (t2_messages_scaled 1000) by lra.
  split; [reflexivity | ]. simpl. subst r rho.
  split; [unfold calculate_surface_area; ring | ].
  split; [unfold calculate_volume; field | ].
  repeat split.
Qed.

Lemma overflows_scaled (k t2 t : R) :
  0 < k -> overflows (k * t2) (t * k) <-> overflows t2 t.
Proof.
  intros Hk. unfold overflows. split; intros [Hp Ho].
  - assert (Ht2 : 0 < t2) by nra. split; [exact Ht2 | ].
    replace (- t / t2) with (- (t * k) / (k * t2)) by (field; lra). exact Ho.
  - split; [now apply Rmult_lt_0_compat | ].
    replace (- (t * k) / (k * t2)) with (- t / t2) by (field; lra). exact Ho.
Qed.

Lemma ranged_decay_scaled (k porosity t2 t : R) :
  0 < k -> ranged_decay porosity (k * t2) (t * k) = ranged_decay porosity t2 t.
Proof.
  intros Hk. unfold ranged_decay.
  destruct (Rgt_dec t2 0) as [Hp | Hn]; destruct (Rgt_dec (k * t2) 0) as [Hp' | Hn'];
    try reflexivity.
  - f_equal. f_equal. unfold Rgt in Hp. field. lra.
  - exfalso. apply Hn'. apply Rmult_lt_0_compat; lra.
  - exfalso. apply Hn. unfold Rgt in *. nra.
Qed.

Lemma map_times_one (l : list R) : map (fun t => t * 1) l = l.
Proof.
  rewrite <- (map_id l) at 2. apply map_ext. intros t. ring.
Qed.

(** When the radius unit and the time unit carry the same factor (µm with
    ms, nm with nm, s with s, ...), the page does what it does with µm and
    ms: either both raise [OverflowError], or both return and their three
    curves are the same, because the factor cancels between T2 and the
    decay times. *)
Theorem equal_unit_factors_keep_curves
  (w : VariantPorosity.widgets) (ru tu : unit_symbol) :
  unit_options ru = unit_options tu ->
  exists log,
    (Binary64Range.variant_porosity (with_units w ru tu) = (Raise OverflowError, log)
     /\ Binary64Range.variant_porosity (with_units w u_um u_ms)
        = (Raise OverflowError, log))
    \/ (exists pg pg',
          Binary64Range.variant_porosity (with_units w ru tu) = (Ok pg, log)
          /\ Binary64Range.variant_porosity (with_units w u_um u_ms) = (Ok pg', log)
          /\ VariantPorosity.mt1_values pg = VariantPorosity.mt1_values pg'
          /\ VariantPorosity.mt2_values pg = VariantPorosity.mt2_values pg'
          /\ VariantPorosity.mt3_values pg = VariantPorosity.mt3_values pg').
Proof.
  intros Heq.
  set (r := VariantPorosity.sphere_radius w).
  set (rho := VariantPorosity.relaxivity w).
  set (l := VariantPorosity.parsed_t2_values w).
  set (k := unit_options tu).
  assert (Hk : 0 < k) by apply unit_options_positive.
  set (T := t2_value rho (sphere_sv r)).
  assert (HT : t2_value rho (sphere_sv (r * k)) = k * T).
  { rewrite (sphere_sv_scaled k r) by exact Hk. now apply t2_value_scaled. }
  assert (HM : t2_messages rho (sphere_sv (r * k)) = t2_messages rho (sphere_sv r)).
  { rewrite (sphere_sv_scaled k r) by exact Hk. now apply t2_messages_scaled. }
  exists (t2_messages rho (sphere_sv r)).
  destruct (overflow_dichotomy T l) as [Hex | Hno].
  - left. split.
    + rewrite ranged_variant_porosity_raises; simpl; rewrite Heq;
        fold r; fold rho; fold l; fold k.
      * now rewrite HM.
      * rewrite HT. apply Exists_exists in Hex. destruct Hex as [t [Hin Ho]].
        apply Exists_exists. exists (t * k). split.
        -- exact (in_map (fun t0 => t0 * k) l t Hin).
        -- now apply overflows_scaled.
    + rewrite ranged_variant_porosity_raises; simpl;
        fold r; fold rho; fold l; rewrite Rmult_1_r.
      * reflexivity.
      * rewrite map_times_one. exact Hex.
  - right. eexists. eexists. split; [ | split].
    + rewrite ranged_variant_porosity_returns; simpl; rewrite Heq;
        fold r; fold rho; fold l; fold k.
      * rewrite HM. reflexivity.
      * rewrite HT. apply Forall_forall. intros x Hx.
        apply in_map_iff in Hx. destruct Hx as [t [<- Ht]].
        rewrite overflows_scaled by exact Hk.
        rewrite Forall_forall in Hno. now apply Hno.
    + rewrite ranged_variant_porosity_returns; simpl;
        fold r; fold rho; fold l; rewrite Rmult_1_r.
      * reflexivity.
      * rewrite map_times_one. exact Hno.
    + simpl. rewrite HT, map_times_one, !map_map.
      repeat split; apply map_ext; intros t; now apply ranged_decay_scaled.
Qed.

Lemma equal_unit_factors_witness :
  exists log,
    (Binary64Range.variant_porosity (with_units (scenario_half_micron [1; 2]) u_nm u_nm)
     = (Raise OverflowError, log)
     /\ Binary64Range.variant_porosity (with_units (scenario_half_micron [1; 2]) u_um u_ms)
        = (Raise OverflowError, log))
    \/ (exists pg pg',
          Binary64Range.variant_porosity (with_units (scenario_half_micron [1; 2]) u_nm u_nm)
          = (Ok pg, log)
          /\ Binary64Range.variant_porosity
               (with_units (scenario_half_micron [1; 2]) u_um u_ms) = (Ok pg', log)
          /\ VariantPorosity.mt1_values pg = VariantPorosity.mt1_values pg'
          /\ VariantPorosity.mt2_values pg = VariantPorosity.mt2_values pg'
          /\ VariantPorosity.mt3_values pg = VariantPorosity.mt3_values pg').
Proof.
  apply (equal_unit_factors_keep_curves (scenario_half_micron [1; 2]) u_nm u_nm).
  reflexivity.
Defined.

End UnitExtras.

(** ** Curves on a page *)

Section CurveExtras.
Local Open Scope R_scope.

Lemma positive_radius_t2 (relaxivity r : R) :
  0 < relaxivity -> 0 < r ->
  t2_value relaxivity (sphere_sv r) = r / (3 * relaxivity)
  /\ 0 < r / (3 * relaxivity)
  /\ t2_messages relaxivity (sphere_sv r) = [].
Proof.
  intros Hrho Hr. split; [apply t2_value_closed_form; lra | ].
  split; [apply Rdiv_lt_0_compat; lra | ].
  unfold t2_messages.
  destruct (ne_dec (sphere_sv r) 0); [ | reflexivity].
  destruct (ne_dec relaxivity 0); [reflexivity | lra].
Qed.

Lemma scaled_grid_positive (k : R) (grid : list R) (i : nat) :
  0 < k -> Forall (fun t => 0 < t) grid -> (i < List.length grid)%nat ->
  0 < nth i (map (fun t => t * k) grid) 0.
Proof.
  intros Hk Hpos Hi.
  rewrite (nth_indep _ 0 ((fun t => t * k) 0)) by (now rewrite length_map).
  rewrite (map_nth (fun t => t * k)).
  apply Rmult_lt_0_compat; [ | exact Hk].
  rewrite Forall_forall in Hpos. apply Hpos. now apply nth_In.
Qed.

Lemma positive_grid_nonneg (grid : list R) :
  Forall (fun t => 0 < t) grid -> Forall (fun t => 0 <= t) grid.
Proof.
  intros H. apply Forall_forall. intros t Ht.
  rewrite Forall_forall in H. left. now apply H.
Qed.

(** On the first page, with a positive relaxivity, radius and first
    porosity and a strictly increasing grid of positive times, nothing is
    raised, no message is shown, T2 is positive, and the first curve never
    increases along the grid, with every value between 0 and the porosity. *)
Theorem variant_porosity_curve_shape (w : VariantPorosity.widgets) :
  0 < VariantPorosity.relaxivity w ->
  0 < VariantPorosity.sphere_radius w ->
  (0 < VariantPorosity.porosity_1 w)%Z ->
  strictly_increasing (VariantPorosity.parsed_t2_values w) ->
  Forall (fun t => 0 < t) (VariantPorosity.parsed_t2_values w) ->
  exists pg,
    Binary64Range.variant_porosity w = ret pg
    /\ 0 < VariantPorosity.t2 pg
    /\ List.length (VariantPorosity.mt1_values pg)
       = List.length (VariantPorosity.parsed_t2_values w)
    /\ non_increasing (VariantPorosity.mt1_values pg)
    /\ Forall (fun m => 0 <= m <= IZR (VariantPorosity.porosity_1 w))
              (VariantPorosity.mt1_values pg).
Proof.
  intros Hrho Hrad Hp Hinc Hpos.
  assert (Hu := unit_options_positive (VariantPorosity.radius_unit w)).
  assert (Hk := unit_options_positive (VariantPorosity.time_unit w)).
  set (r := VariantPorosity.sphere_radius w
            * unit_options (VariantPorosity.radius_unit w)).
  assert (Hr : 0 < r) by (unfold r; now apply Rmult_lt_0_compat).
  destruct (positive_radius_t2 _ _ Hrho Hr) as [Ht2 [Ht2pos Hlog]].
  assert (Hpr : 0 < IZR (VariantPorosity.porosity_1 w)) by now apply IZR_lt.
  assert (Hi2 : 0 < / (r / (3 * VariantPorosity.relaxivity w)))
    by now apply Rinv_0_lt_compat.
  rewrite ranged_variant_porosity_returns.
  2:{ apply nonneg_grid_no_overflow. apply scaled_grid_nonneg; [exact Hk | ].
      now apply positive_grid_nonneg. }
  fold r. rewrite Hlog, Ht2.
  eexists. split; [reflexivity | ]. simpl.
  split; [exact Ht2pos | ].
  split; [now rewrite !length_map | ].
  split.
  - intros i j [Hij Hj]. rewrite !length_map in Hj.
    rewrite !nth_map_ranged_decay by (rewrite length_map; lia).
    rewrite !ranged_decay_positive by exact Ht2pos.
    apply Rmult_le_compat_l; [lra | ]. apply clipped_exp_monotone.
    assert (Hlt : nth i (map (fun t => t * unit_options (VariantPorosity.time_unit w))
                             (VariantPorosity.parsed_t2_values w)) 0
                  < nth j (map (fun t => t * unit_options (VariantPorosity.time_unit w))
                               (VariantPorosity.parsed_t2_values w)) 0).
    { apply scaled_grid_increasing; try assumption. rewrite length_map. lia. }
    unfold Rdiv. nra.
  - apply Forall_forall. intros m Hm.
    apply in_map_iff in Hm. destruct Hm as [t [<- Ht]].
    apply in_map_iff in Ht. destruct Ht as [t0 [<- Ht0]].
    assert (Ht0pos : 0 < t0) by (rewrite Forall_forall in Hpos; now apply Hpos).
    rewrite ranged_decay_positive by exact Ht2pos.
    assert (Htk : 0 <= t0 * unit_options (VariantPorosity.time_unit w)) by nra.
    assert (Hq : - (t0 * unit_options (VariantPorosity.time_unit w))
                 / (r / (3 * VariantPorosity.relaxivity w)) <= 0)
      by (unfold Rdiv; nra).
    assert (H0 := clipped_exp_nonneg
                    (- (t0 * unit_options (VariantPorosity.time_unit w))
                     / (r / (3 * VariantPorosity.relaxivity w)))).
    assert (H1 := clipped_exp_le_1 _ Hq).
    split; nra.
Qed.

Lemma variant_porosity_curve_shape_witness :
  exists pg,
    Binary64Range.variant_porosity (scenario_half_micron [1; 2]) = ret pg
    /\ 0 < VariantPorosity.t2 pg
    /\ List.length (VariantPorosity.mt1_values pg) = 2%nat
    /\ non_increasing (VariantPorosity.mt1_values pg)
    /\ Forall (fun m => 0 <= m <= 30) (VariantPorosity.mt1_values pg).
Proof.
  apply (variant_porosity_curve_shape (scenario_half_micron [1; 2])).
  - simpl. lra.
  - simpl. lra.
  - reflexivity.
  - exact strictly_increasing_1_2.
  - exact positive_1_2.
Defined.

Lemma ranged_variant_pore_size_returns (w : VariantPoreSize.widgets) :
  let u := unit_options (VariantPoreSize.radius_unit_tab2 w) in
  let r1 := VariantPoreSize.pore_size_1_tab2 w * u in
  let r2 := VariantPoreSize.pore_size_2_tab2 w * u in
  let r3 := VariantPoreSize.pore_size_3_tab2 w * u in
  let rho := VariantPoreSize.relaxivity_tab2 w in
  let p := IZR (VariantPoreSize.porosity_tab2 w) in
  let grid := map (fun t => t * unit_options (VariantPoreSize.time_unit_tab2 w))
                  (VariantPoreSize.parsed_t2_values_tab2 w) in
  Forall (fun t => 0 <= t) (VariantPoreSize.parsed_t2_values_tab2 w) ->
  Binary64Range.variant_pore_size w
  = (Ok {| VariantPoreSize.slider_t2_values_tab2 := grid;
           VariantPoreSize.surface_to_volume_ratio_1_tab2 := sphere_sv r1;
           VariantPoreSize.surface_to_volume_ratio_2_tab2 := sphere_sv r2;
           VariantPoreSize.surface_to_volume_ratio_3_tab2 := sphere_sv r3;
           VariantPoreSize.t2_1_tab2 := t2_value rho (sphere_sv r1);
           VariantPoreSize.t2_2_tab2 := t2_value rho (sphere_sv r2);
           VariantPoreSize.t2_3_tab2 := t2_value rho (sphere_sv r3);
           VariantPoreSize.mt1_values_tab2 :=
             map (ranged_decay p (t2_value rho (sphere_sv r1))) grid;
           VariantPoreSize.mt2_values_tab2 :=
             map (ranged_decay p (t2_value rho (sphere_sv r2))) grid;
           VariantPoreSize.mt3_values_tab2 :=
             map (ranged_decay p (t2_value rho (sphere_sv r3))) grid |},
     t2_messages rho (sphere_sv r1) ++ t2_messages rho (sphere_sv r2)
     ++ t2_messages rho (sphere_sv r3)).
Proof.
  intros u r1 r2 r3 rho p grid Hnn.
  assert (Hk := unit_options_positive (VariantPoreSize.time_unit_tab2 w)).
  assert (Hg : Forall (fun t => 0 <= t) grid) by now apply scaled_grid_nonneg.
  unfold Binary64Range.variant_pore_size.
  fold u. fold r1. fold r2. fold r3. fold rho. fold p. fold grid.
  rewrite !geometry_total, !bind_ret.
  rewrite (calculate_t2_total rho (sphere_sv r1)), bind_ok.
  rewrite (calculate_t2_total rho (sphere_sv r2)), bind_ok.
  rewrite (calculate_t2_total rho (sphere_sv r3)), bind_ok.
  rewrite !(ranged_mt_values_returns p _ grid) by now apply nonneg_grid_no_overflow.
  rewrite !bind_ret. simpl. now rewrite !app_nil_r.
Qed.

(** On the second page, with a positive relaxivity and porosity and
    positive decay times, nothing is raised and a larger pore has a T2 that
    is not smaller and, at every decay time, an Mt value that is not
    smaller: it does not decay faster. *)
Theorem larger_pore_decays_slower (w : VariantPoreSize.widgets) :
  0 < VariantPoreSize.relaxivity_tab2 w ->
  0 < VariantPoreSize.pore_size_3_tab2 w ->
  VariantPoreSize.pore_size_3_tab2 w < VariantPoreSize.pore_size_1_tab2 w ->
  (0 < VariantPoreSize.porosity_tab2 w)%Z ->
  Forall (fun t => 0 < t) (VariantPoreSize.parsed_t2_values_tab2 w) ->
  exists pg log,
    Binary64Range.variant_pore_size w = (Ok pg, log)
    /\ 0 < VariantPoreSize.t2_3_tab2 pg <= VariantPoreSize.t2_1_tab2 pg
    /\ forall i, (i < List.length (VariantPoreSize.parsed_t2_values_tab2 w))%nat ->
         nth i (VariantPoreSize.mt3_values_tab2 pg) 0
         <= nth i (VariantPoreSize.mt1_values_tab2 pg) 0.
Proof.
  intros Hrho H3 H31 Hp Hpos.
  assert (Hu := unit_options_positive (VariantPoreSize.radius_unit_tab2 w)).
  assert (Hk := unit_options_positive (VariantPoreSize.time_unit_tab2 w)).
  set (u := unit_options (VariantPoreSize.radius_unit_tab2 w)) in *.
  set (k := unit_options (VariantPoreSize.time_unit_tab2 w)) in *.
  set (rho := VariantPoreSize.relaxivity_tab2 w) in *.
  set (r1 := VariantPoreSize.pore_size_1_tab2 w * u).
  set (r3 := VariantPoreSize.pore_size_3_tab2 w * u).
  assert (Hr3 : 0 < r3) by (unfold r3; now apply Rmult_lt_0_compat).
  assert (Hr13 : r3 < r1) by (unfold r1, r3; now apply Rmult_lt_compat_r).
  assert (Hr1 : 0 < r1) by lra.
  destruct (positive_radius_t2 rho r1 Hrho Hr1) as [E1 [P1 _]].
  destruct (positive_radius_t2 rho r3 Hrho Hr3) as [E3 [P3 _]].
  assert (Hlt : r3 / (3 * rho) < r1 / (3 * rho)).
  { unfold Rdiv. apply Rmult_lt_compat_r; [ | exact Hr13].
    apply Rinv_0_lt_compat. lra. }
  eexists. eexists. split.
  { apply ranged_variant_pore_size_returns. now apply positive_grid_nonneg. }
  simpl. fold u. fold k. fold rho. fold r1. fold r3. rewrite E1, E3.
  split; [split; [assumption | lra] | ].
  intros i Hi.
  rewrite !nth_map_ranged_decay by (now rewrite length_map).
  rewrite !ranged_decay_positive by assumption.
  assert (Hpr : 0 < IZR (VariantPoreSize.porosity_tab2 w)) by now apply IZR_lt.
  apply Rmult_le_compat_l; [lra | ]. apply clipped_exp_monotone.
  set (t := nth i (map (fun t0 => t0 * k) (VariantPoreSize.parsed_t2_values_tab2 w)) 0).
  assert (Ht : 0 < t) by (unfold t; now apply scaled_grid_positive).
  assert (Hinv : / (r1 / (3 * rho)) < / (r3 / (3 * rho)))
    by (apply Rinv_lt_contravar; [now apply Rmult_lt_0_compat | exact Hlt]).
  unfold Rdiv at 1 3. nra.
Qed.

Lemma larger_pore_decays_slower_witness :
  exists pg log,
    Binary64Range.variant_pore_size (scenario_three_radii [1; 2]) = (Ok pg, log)
    /\ 0 < VariantPoreSize.t2_3_tab2 pg <= VariantPoreSize.t2_1_tab2 pg
    /\ forall i, (i < 2)%nat ->
         nth i (VariantPoreSize.mt3_values_tab2 pg) 0
         <= nth i (VariantPoreSize.mt1_values_tab2 pg) 0.
Proof.
  apply (larger_pore_decays_slower (scenario_three_radii [1; 2])).
  - simpl. lra.
  - simpl. lra.
  - simpl. lra.
  - reflexivity.
  - exact positive_1_2.
Defined.

End CurveExtras.

(** ** The T2 text, in general *)

Section ParseExtras.

Fixpoint count_char (c : ascii) (s : string) : nat :=
  match s with
  | EmptyString => 0
  | String d rest => (if Ascii.eqb d c then 1 else 0) + count_char c rest
  end.

(** A text of whitespace only (possibly empty). *)
Definition blank (s : string) : Prop :=
  Forall (fun c => is_space c = true) (list_ascii_of_string s).

Lemma split_nonempty (sep : ascii) (s : string) : split sep s <> [].
Proof.
  destruct s as [| c rest]; simpl; [discriminate | ].
  destruct (Ascii.eqb c sep); [discriminate | ].
  destruct (split sep rest); discriminate.
Qed.

Lemma split_length (sep : ascii) (s : string) :
  List.length (split sep s) = S (count_char sep s).
Proof.
  induction s as [| c rest IH]; simpl; [reflexivity | ].
  destruct (Ascii.eqb c sep); simpl.
  - now rewrite IH.
  - destruct (split sep rest) eqn:E; [now elim (split_nonempty sep rest) | ].
    simpl in *. exact IH.
Qed.

Lemma split_app_sep (sep : ascii) (a b : string) :
  split sep (a ++ String sep b) = (split sep a ++ split sep b)%list.
Proof.
  induction a as [| c rest IH]; simpl.
  - now rewrite Ascii.eqb_refl.
  - destruct (Ascii.eqb c sep); [now rewrite IH | ].
    rewrite IH.
    destruct (split sep rest) eqn:E; [now elim (split_nonempty sep rest) | ].
    reflexivity.
Qed.

Lemma split_without_sep (sep : ascii) (s : string) :
  count_char sep s = 0%nat -> split sep s = [s].
Proof.
  induction s as [| c rest IH]; simpl; [reflexivity | ].
  destruct (Ascii.eqb c sep); [discriminate | ].
  intros H. now rewrite (IH H).
Qed.

Lemma lstrip_all (space : ascii -> bool) (l : list ascii) :
  Forall (fun c => space c = true) l -> lstrip space l = [].
Proof. induction 1 as [| c l Hc _ IH]; simpl; [reflexivity | now rewrite Hc]. Qed.

Lemma lstrip_skip (space : ascii -> bool) (p l : list ascii) :
  Forall (fun c => space c = true) p -> lstrip space (p ++ l) = lstrip space l.
Proof. induction 1 as [| c p Hc _ IH]; simpl; [reflexivity | now rewrite Hc]. Qed.

Lemma lstrip_empty_all (space : ascii -> bool) (l : list ascii) :
  lstrip space l = [] -> Forall (fun c => space c = true) l.
Proof.
  induction l as [| c l IH]; simpl; intros H; [constructor | ].
  destruct (space c) eqn:E; [ | discriminate]. constructor; auto.
Qed.

Lemma lstrip_app_kept (space : ascii -> bool) (l q : list ascii) :
  lstrip space l <> [] -> lstrip space (l ++ q) = (lstrip space l ++ q)%list.
Proof.
  induction l as [| c l IH]; simpl; intros H; [now elim H | ].
  destruct (space c); [now apply IH | reflexivity].
Qed.

Lemma rstrip_skip (space : ascii -> bool) (l q : list ascii) :
  Forall (fun c => space c = true) q -> rstrip space (l ++ q) = rstrip space l.
Proof.
  intros Hq. unfold rstrip. rewrite rev_app_distr, lstrip_skip; [reflexivity | ].
  apply Forall_rev. exact Hq.
Qed.

Lemma list_ascii_of_string_app (a b : string) :
  list_ascii_of_string (a ++ b) = (list_ascii_of_string a ++ list_ascii_of_string b)%list.
Proof. induction a as [| c a IH]; simpl; [reflexivity | now rewrite IH]. Qed.

Lemma strip_blank (s : string) : blank s -> strip s = EmptyString.
Proof.
  intros H. unfold strip. now rewrite (lstrip_all _ _ H).
Qed.

Lemma strip_padded (pre tok post : string) :
  blank pre -> blank post -> strip (pre ++ tok ++ post) = strip tok.
Proof.
  intros Hpre Hpost. unfold strip. f_equal.
  rewrite !list_ascii_of_string_app, (lstrip_skip _ _ _ Hpre).
  set (l := list_ascii_of_string tok). set (q := list_ascii_of_string post).
  destruct (lstrip is_space l) as [| c rest] eqn:E.
  - rewrite lstrip_all; [reflexivity | ].
    apply Forall_app. split; [now apply lstrip_empty_all | exact Hpost].
  - rewrite lstrip_app_kept by (rewrite E; discriminate).
    rewrite E. now apply rstrip_skip.
Qed.

Lemma unparseable_empty_field : unparseable EmptyString.
Proof. reflexivity. Qed.

(** Reading the T2 text never raises and never gives an empty grid.  Either
    no message is shown and the grid has one value per field, that is one
    more than the text has commas; or the invalid-values message is shown
    and the grid is the default one. *)
Theorem slider_t2_values_never_empty (raw : string) :
  exists grid log,
    slider_t2_values raw = (Ok grid, log)
    /\ grid <> []
    /\ ((log = [] /\ List.length grid = S (count_char "," raw))
        \/ (log = [invalid_t2_values] /\ grid = default_t2_values)).
Proof.
  destruct (comprehension_dichotomy (fun t => float (strip t)) ValueError
              (split "," raw) (fun t => float_cases (strip t))) as [Hex | Hall].
  - exists default_t2_values, [invalid_t2_values].
    split; [now apply slider_fallback | ]. split; [discriminate | now right].
  - destruct (slider_parsed raw Hall) as [vs [Hvs H2]].
    assert (Hlen : List.length vs = S (count_char "," raw)).
    { rewrite <- (Forall2_length H2). apply split_length. }
    exists vs, []. split; [exact Hvs | ]. split; [ | now left].
    intros E. rewrite E in Hlen. discriminate Hlen.
Qed.

(** A stray comma makes the whole text invalid: a text that ends with a
    comma, begins with one or has two in a row gives the default grid and
    the message, whatever else it holds; so does a text of blanks only,
    the empty text included. *)
Theorem stray_comma_falls_back :
  (forall a : string,
     slider_t2_values (a ++ ",") = (Ok default_t2_values, [invalid_t2_values]))
  /\ (forall b : string,
        slider_t2_values ("," ++ b) = (Ok default_t2_values, [invalid_t2_values]))
  /\ (forall a b : string,
        slider_t2_values (a ++ ",," ++ b)
        = (Ok default_t2_values, [invalid_t2_values]))
  /\ (forall s : string, blank s -> count_char "," s = 0%nat ->
        slider_t2_values s = (Ok default_t2_values, [invalid_t2_values])).
Proof.
  split; [ | split; [ | split]].
  - intros a. apply slider_fallback.
    change (a ++ ",")%string with (a ++ String "," EmptyString)%string.
    rewrite split_app_sep. apply Exists_app. right. simpl.
    apply Exists_cons_hd. exact unparseable_empty_field.
  - intros b. apply slider_fallback. simpl.
    apply Exists_cons_hd. exact unparseable_empty_field.
  - intros a b. apply slider_fallback.
    change (a ++ ",," ++ b)%string with (a ++ String "," (String "," b))%string.
    rewrite split_app_sep. apply Exists_app. right. simpl.
    apply Exists_cons_hd. exact unparseable_empty_field.
  - intros s Hb Hc. apply slider_fallback.
    rewrite (split_without_sep _ _ Hc). apply Exists_cons_hd.
    unfold unparseable. now rewrite (strip_blank s Hb).
Qed.

Lemma stray_comma_witness :
  slider_t2_values "1, 2," = (Ok default_t2_values, [invalid_t2_values])
  /\ slider_t2_values "   " = (Ok default_t2_values, [invalid_t2_values]).
Proof.
  destruct stray_comma_falls_back as [Htrail [_ [_ Hblank]]].
  split.
  - exact (Htrail "1, 2"%string).
  - apply Hblank.
    + repeat constructor.
    + reflexivity.
Defined.

(** Blanks around a field do not matter: a field padded with whitespace on
    either side is converted exactly as the bare field is. *)
Theorem blanks_around_field_ignored (pre tok post : string) :
  blank pre -> blank post ->
  strip (pre ++ tok ++ post) = strip tok
  /\ float (strip (pre ++ tok ++ post)) = float (strip tok).
Proof.
  intros Hpre Hpost. rewrite (strip_padded pre tok post Hpre Hpost). now split.
Qed.

Lemma blanks_around_field_witness :
  strip ("  " ++ "1.5" ++ " ") = strip "1.5"
  /\ float (strip ("  " ++ "1.5" ++ " ")) = float (strip "1.5").
Proof.
  apply (blanks_around_field_ignored "  " "1.5" " "); repeat constructor.
Defined.

End ParseExtras.

(** ** The second page, in general *)

Section PoreSizeExtras.
Local Open Scope R_scope.

Lemma t2_value_cross (relaxivity a b u : R) :
  0 < u ->
  t2_value relaxivity (sphere_sv (a * u)) * b
  = t2_value relaxivity (sphere_sv (b * u)) * a.
Proof.
  intros Hu.
  assert (Hz : forall x, x = 0 -> t2_value relaxivity (sphere_sv (x * u)) = 0).
  { intros x ->. rewrite Rmult_0_l. unfold t2_value.
    assert (E : sphere_sv 0 = 0) by now apply sphere_sv_zero_iff.
    rewrite E. destruct (ne_dec 0 0) as [N | _]; [now elim N | reflexivity]. }
  destruct (Req_dec a 0) as [Ha | Ha]; [rewrite (Hz a Ha), Ha; ring | ].
  destruct (Req_dec b 0) as [Hb | Hb]; [rewrite (Hz b Hb), Hb; ring | ].
  destruct (Req_dec relaxivity 0) as [Hr | Hr].
  - unfold t2_value. subst relaxivity.
    destruct (ne_dec (sphere_sv (a * u)) 0); destruct (ne_dec (sphere_sv (b * u)) 0);
      destruct (ne_dec 0 0) as [N | _]; try (now elim N); ring.
  - rewrite !t2_value_closed_form; try assumption.
    + field. exact Hr.
    + apply Rmult_integral_contrapositive_currified; lra.
    + apply Rmult_integral_contrapositive_currified; lra.
Qed.

(** On the second page the T2 values are in the proportion of the pore
    sizes, whatever the relaxivity and the unit selected, zero sizes and a
    zero relaxivity included: T2_i * size_j = T2_j * size_i. *)
Theorem pore_size_t2_proportional (w : VariantPoreSize.widgets) :
  exists pg log,
    VariantPoreSize.run w = (Ok pg, log)
    /\ VariantPoreSize.t2_1_tab2 pg * VariantPoreSize.pore_size_2_tab2 w
       = VariantPoreSize.t2_2_tab2 pg * VariantPoreSize.pore_size_1_tab2 w
    /\ VariantPoreSize.t2_1_tab2 pg * VariantPoreSize.pore_size_3_tab2 w
       = VariantPoreSize.t2_3_tab2 pg * VariantPoreSize.pore_size_1_tab2 w
    /\ VariantPoreSize.t2_2_tab2 pg * VariantPoreSize.pore_size_3_tab2 w
       = VariantPoreSize.t2_3_tab2 pg * VariantPoreSize.pore_size_2_tab2 w.
Proof.
  assert (Hu := unit_options_positive (VariantPoreSize.radius_unit_tab2 w)).
  eexists. eexists. split; [apply variant_pore_size_total | ]. simpl.
  repeat split; now apply t2_value_cross.
Qed.

End PoreSizeExtras.
